(** * Flat Image Tree validator: schema elements and the validation engine

    A shallow embedding of [fit_validate/elements.py] and
    [fit_validate/fdt_validate.py].

    - Python strings are [string]; a dict whose iteration order shows in
      the output (node properties, [conditional_props]) is an association
      list in insertion order.
    - Schema elements are Python objects with a mutable [parent]
      attribute and, for nodes, a mutable [elements] list: they live in a
      heap addressed by index, so that aliasing and in-place updates are
      those of the source.
    - The devicetree is read-only: a node is a rose tree and its [parent]
      reference is the stack of its ancestors.
    - [FdtValidator] methods run in a monad that threads [_errors] and
      may raise. *)

From Stdlib Require Import ZArith Ascii String List Bool Lia.
From stdpp Require Import base list pretty.
Import ListNotations.

Local Open Scope string_scope.
Local Open Scope list_scope.

(** ** Python string helpers *)

Module PyStr.

(** [s.split('/')] *)
Fixpoint split_slash (s : string) : list string :=
  match s with
  | EmptyString => [EmptyString]
  | String c rest =>
      if Ascii.eqb c "/" then EmptyString :: split_slash rest
      else match split_slash rest with
           | [] => [String c EmptyString]
           | seg :: segs => String c seg :: segs
           end
  end.

(** [sep.join(l)] *)
Fixpoint join (sep : string) (l : list string) : string :=
  match l with
  | [] => ""
  | [x] => x
  | x :: rest => x +:+ sep +:+ join sep rest
  end.

(** ['@' in s] *)
Fixpoint contains_at (s : string) : bool :=
  match s with
  | EmptyString => false
  | String c rest => Ascii.eqb c "@" || contains_at rest
  end.

(** [name in names] for a list (or set) of strings *)
Definition mem (name : string) (names : list string) : bool :=
  existsb (String.eqb name) names.

(** [s.rstrip('/')] *)
Fixpoint rstrip_slash (s : string) : string :=
  match s with
  | EmptyString => EmptyString
  | String c rest =>
      match rstrip_slash rest with
      | EmptyString => if Ascii.eqb c "/" then EmptyString
                       else String c EmptyString
      | r => String c r
      end
  end.

(** [s == '/' * len(s)] *)
Fixpoint all_slash (s : string) : bool :=
  match s with
  | EmptyString => true
  | String c rest => Ascii.eqb c "/" && all_slash rest
  end.

(** [p[:p.rfind('/') + 1]]: the prefix up to and including the last
    slash, empty when there is none. *)
Fixpoint upto_last_slash (p : string) : string :=
  match p with
  | EmptyString => EmptyString
  | String c rest =>
      match upto_last_slash rest with
      | EmptyString => if Ascii.eqb c "/" then String c EmptyString
                       else EmptyString
      | r => String c r
      end
  end.

(** [os.path.dirname(p)] (posixpath) *)
Definition dirname (p : string) : string :=
  let head := upto_last_slash p in
  if negb (String.eqb head "") && negb (all_slash head)
  then rstrip_slash head else head.

(** [f'{location}: {msg}'] *)
Definition fmt_error (location msg : string) : string :=
  location +:+ ": " +:+ msg.

End PyStr.

(** ** Exceptions and results *)

(** The Python exceptions the validator can end with.  [ValueError] is
    the one [fail] raises; the others come from attribute access on
    [None] or on an object of another class, and from the library calls
    ([re.match], [struct.unpack]) on a value of the wrong shape. *)
Inductive Exc :=
| ValueError (msg : string)
| AttributeError
| TypeError
| StructError.

Inductive Outcome (A : Type) :=
| Ok (a : A)
| Raise (e : Exc).

Arguments Ok {A} a.
Arguments Raise {A} e.

Definition obind {A B} (m : Outcome A) (k : A -> Outcome B) : Outcome B :=
  match m with
  | Ok a => k a
  | Raise e => Raise e
  end.

Notation "'let?' x ':=' m 'in' k" := (obind m (fun x => k))
  (at level 10, x pattern, m at level 100, k at level 200).

(** ** The parsed devicetree *)

(** [dtoc.fdt.Type] *)
Inductive FdtType := TBYTE | TINT | TSTRING | TBOOL | TINT64.

Definition FdtType_eqb (a b : FdtType) : bool :=
  match a, b with
  | TBYTE, TBYTE | TINT, TINT | TSTRING, TSTRING
  | TBOOL, TBOOL | TINT64, TINT64 => true
  | _, _ => false
  end.

(** [Prop.value]: a decoded string, a decoded string list, or the raw
    bytes of the cells. *)
Inductive PropValue :=
| ValString (s : string)
| ValStringList (l : list string)
| ValRaw (bytes : list Z).

Record FdtProp := mkProp {
  p_name : string;
  p_type : FdtType;
  p_value : PropValue
}.

(** [fdt.Node].  [props] keeps the insertion order of the dict. *)
#[warnings="-register-all"]
Inductive Node := mkNode {
  n_name : string;
  n_path : string;
  n_props : list (string * FdtProp);
  n_subnodes : list Node
}.

(** A node together with its [parent] chain, nearest ancestor first. *)
Record NodeRef := mkRef {
  nr_node : Node;
  nr_up : list Node
}.

(** [node.parent] *)
Definition node_parent (r : NodeRef) : option NodeRef :=
  match nr_up r with
  | [] => None
  | p :: up => Some (mkRef p up)
  end.

(** [node.props.keys()] *)
Definition prop_keys (n : Node) : list string := map fst (n_props n).

(** [node.props[name]] *)
Fixpoint props_get (ps : list (string * FdtProp)) (name : string)
  : option FdtProp :=
  match ps with
  | [] => None
  | (k, p) :: rest => if String.eqb k name then Some p else props_get rest name
  end.

(** [[n.name for n in node.subnodes]] *)
Definition subnode_names (n : Node) : list string :=
  map n_name (n_subnodes n).

(** What a schema element is validated against: [validate] receives
    either a property (with the path of the node that owns it, which the
    source reads through [prop._node] / [prop.node]) or a node. *)
Inductive PyArg :=
| ArgProp (owner_path : string) (p : FdtProp)
| ArgNode (n : NodeRef).

(** Attribute reads on that argument; a node has no [type] or [value]
    and no owning node. *)
Definition arg_name (a : PyArg) : string :=
  match a with
  | ArgProp _ p => p_name p
  | ArgNode n => n_name (nr_node n)
  end.

Definition arg_type (a : PyArg) : Outcome FdtType :=
  match a with
  | ArgProp _ p => Ok (p_type p)
  | ArgNode _ => Raise AttributeError
  end.

Definition arg_value (a : PyArg) : Outcome PropValue :=
  match a with
  | ArgProp _ p => Ok (p_value p)
  | ArgNode _ => Raise AttributeError
  end.

(** [get_node_path(prop)], also [prop.node.path] *)
Definition get_node_path (a : PyArg) : Outcome string :=
  match a with
  | ArgProp owner_path _ => Ok owner_path
  | ArgNode _ => Raise AttributeError
  end.

(** [fdt_util.fdt32_to_cpu]: [struct.unpack('>I', val)[0]] *)
Definition fdt32_to_cpu (v : PropValue) : Outcome Z :=
  match v with
  | ValRaw [b0; b1; b2; b3] =>
      Ok (Z.lor (Z.shiftl b0 24)
            (Z.lor (Z.shiftl b1 16) (Z.lor (Z.shiftl b2 8) b3)))
  | ValRaw _ => Raise StructError
  | _ => Raise TypeError
  end.

(** The collaborators the engine calls but does not contain. *)
Record Env := mkEnv {
  (** [re.match(pattern, s)] is not [None] *)
  re_match : string -> string -> bool;
  (** [str(prop.value)] as an f-string renders it *)
  py_str : PropValue -> string;
  (** [prop.fdt.LookupPhandle(prop.GetPhandle())] *)
  resolve_phandle : FdtProp -> option Node
}.

(** ** Schema elements ([elements.py]) *)

(** An injected validation function ([PropCustom], [PropAny]): it gets
    the validator and the property and reports through [val.fail]; the
    model keeps the (location, message) pairs it passes to [fail], in
    order. *)
Definition CustomValidator := PyArg -> list (string * string).

(** The class of an element with the attributes that class adds. *)
Inductive ElemKind :=
| KSchemaElement
| KPropDesc
| KPropString (str_pattern : string)
| KPropInt
| KPropTimestamp
| KPropAddressCells
| KPropBool
| KPropStringList (str_pattern : string)
| KPropPhandleTarget
| KPropPhandle (target_path_match : string)
| KPropCustom (validator : CustomValidator)
| KPropAny (validator : option CustomValidator)
| KPropOneOf (options : list string)
| KNodeDesc
| KNodeModel
| KNodeSubmodel
| KNodeAny (name_pattern : string)
| KNodeImage (name_pattern : string)
| KNodeConfig (name_pattern : string).

(** [isinstance(e, PropDesc)] *)
Definition is_PropDesc (k : ElemKind) : bool :=
  match k with
  | KPropDesc | KPropString _ | KPropInt | KPropTimestamp
  | KPropAddressCells | KPropBool | KPropStringList _
  | KPropPhandleTarget | KPropPhandle _ | KPropCustom _ | KPropAny _
  | KPropOneOf _ => true
  | _ => false
  end.

(** [isinstance(e, PropAny)] *)
Definition is_PropAny (k : ElemKind) : bool :=
  match k with
  | KPropAny _ => true
  | _ => false
  end.

(** [isinstance(e, NodeDesc)] *)
Definition is_NodeDesc (k : ElemKind) : bool :=
  match k with
  | KNodeDesc | KNodeModel | KNodeSubmodel
  | KNodeAny _ | KNodeImage _ | KNodeConfig _ => true
  | _ => false
  end.

(** [isinstance(e, NodeAny)] *)
Definition is_NodeAny (k : ElemKind) : bool :=
  match k with
  | KNodeAny _ | KNodeImage _ | KNodeConfig _ => true
  | _ => false
  end.

(** A reference to a schema element: its index in the heap. *)
Definition ElemId := nat.

(** One [SchemaElement] object.  [conditional_props] and [parent] are
    [None] as in Python; [elements] is [None] for the classes that have
    no such attribute. *)
Record SchemaElement := mkElem {
  kind : ElemKind;
  name : string;
  prop_type : string;
  required : bool;
  conditional_props : option (list (string * bool));
  parent : option ElemId;
  elements : option (list ElemId)
}.

Abbreviation Heap := (list SchemaElement).

Definition set_parent (e : SchemaElement) (p : option ElemId)
  : SchemaElement :=
  mkElem (kind e) (name e) (prop_type e) (required e)
         (conditional_props e) p (elements e).

Definition set_elements (e : SchemaElement) (els : option (list ElemId))
  : SchemaElement :=
  mkElem (kind e) (name e) (prop_type e) (required e)
         (conditional_props e) (parent e) els.

(** Reading through a reference; [None], and an index nothing was
    allocated at, have no attributes. *)
Definition deref (h : Heap) (r : option ElemId) : Outcome SchemaElement :=
  match r with
  | None => Raise AttributeError
  | Some i =>
      match h !! i with
      | Some e => Ok e
      | None => Raise AttributeError
      end
  end.

(** [r.parent] *)
Definition get_parent (h : Heap) (r : option ElemId)
  : Outcome (option ElemId) :=
  let? e := deref h r in Ok (parent e).

(** [r.elements] *)
Definition get_elements (h : Heap) (r : option ElemId)
  : Outcome (list ElemId) :=
  let? e := deref h r in
  match elements e with
  | Some els => Ok els
  | None => Raise AttributeError
  end.

(** [[e.name for e in els]] *)
Fixpoint element_names (h : Heap) (els : list ElemId)
  : Outcome (list string) :=
  match els with
  | [] => Ok []
  | e :: rest =>
      let? x := deref h (Some e) in
      let? names := element_names h rest in
      Ok (name x :: names)
  end.

(** *** Constructors: each allocates one object and returns its
    reference with the new heap. *)

Definition alloc (h : Heap) (e : SchemaElement) : Heap * ElemId :=
  (h ++ [e], length h).

(** [elem.parent = p] *)
Definition assign_parent (h : Heap) (elem : ElemId) (p : option ElemId)
  : Heap :=
  match h !! elem with
  | Some e => <[elem := set_parent e p]> h
  | None => h
  end.

(** [SchemaElement.__init__] and the property classes over it, which
    only fix [name] and [prop_type]. *)
Definition SchemaElement_init (k : ElemKind) (nm ty : string) (req : bool)
    (conds : option (list (string * bool))) : SchemaElement :=
  mkElem k nm ty req conds None None.

Definition PropDesc (h : Heap) nm ty req conds :=
  alloc h (SchemaElement_init KPropDesc nm ty req conds).
Definition PropString (h : Heap) nm req pat conds :=
  alloc h (SchemaElement_init (KPropString pat) nm "string" req conds).
Definition PropInt (h : Heap) nm req conds :=
  alloc h (SchemaElement_init KPropInt nm "int" req conds).
Definition PropTimestamp (h : Heap) nm req conds :=
  alloc h (SchemaElement_init KPropTimestamp nm "int" req conds).
Definition PropAddressCells (h : Heap) req conds :=
  alloc h (SchemaElement_init KPropAddressCells "#address-cells"
             "address-cells" req conds).
Definition PropBool (h : Heap) nm req conds :=
  alloc h (SchemaElement_init KPropBool nm "bool" req conds).
Definition PropStringList (h : Heap) nm req pat conds :=
  alloc h (SchemaElement_init (KPropStringList pat) nm "stringlist" req conds).
Definition PropPhandleTarget (h : Heap) req conds :=
  alloc h (SchemaElement_init KPropPhandleTarget "phandle"
             "phandle-target" req conds).
Definition PropPhandle (h : Heap) nm target req conds :=
  alloc h (SchemaElement_init (KPropPhandle target) nm "phandle" req conds).
Definition PropCustom (h : Heap) nm validator req conds :=
  alloc h (SchemaElement_init (KPropCustom validator) nm "custom" req conds).
Definition PropAny (h : Heap) validator :=
  alloc h (SchemaElement_init (KPropAny validator) "ANY" "any" false None).
Definition PropOneOf (h : Heap) nm req options conds :=
  alloc h (SchemaElement_init (KPropOneOf options) nm "oneof" req conds).

(** [NodeDesc.__init__]: store the list, then point every listed
    element's [parent] at the new node. *)
Definition NodeDesc_init (h : Heap) (k : ElemKind) (nm : string)
    (req : bool) (els : list ElemId)
    (conds : option (list (string * bool))) : Heap * ElemId :=
  let self_obj := set_elements (SchemaElement_init k nm "node" req conds)
                    (Some els) in
  let '(h1, self) := alloc h self_obj in
  (fold_left (fun hh element => assign_parent hh element (Some self)) els h1,
   self).

Definition NodeDesc (h : Heap) nm req els conds :=
  NodeDesc_init h KNodeDesc nm req els conds.
Definition NodeModel (h : Heap) els :=
  NodeDesc_init h KNodeModel "MODEL" false els None.
Definition NodeSubmodel (h : Heap) els :=
  NodeDesc_init h KNodeSubmodel "SUBMODEL" false els None.
Definition NodeAny (h : Heap) name_pattern els :=
  NodeDesc_init h (KNodeAny name_pattern) "ANY" false els None.
Definition NodeImage (h : Heap) name_pattern els :=
  NodeDesc_init h (KNodeImage name_pattern) "ANY" false els None.
Definition NodeConfig (h : Heap) name_pattern els :=
  NodeDesc_init h (KNodeConfig name_pattern) "ANY" false els None.

(** [NodeAny.add_element], a method of [NodeAny] and its subclasses:
    [self.elements.append(elem); elem.parent = elem] *)
Definition add_element (h : Heap) (self elem : ElemId) : Outcome Heap :=
  let? self_obj := deref h (Some self) in
  if negb (is_NodeAny (kind self_obj)) then Raise AttributeError else
  let? els := get_elements h (Some self) in
  let h1 := <[self := set_elements self_obj (Some (els ++ [elem]))]> h in
  Ok (assign_parent h1 elem (Some elem)).

(** [NodeDesc.get_nodes] *)
Fixpoint filter_nodes (h : Heap) (els : list ElemId)
  : Outcome (list ElemId) :=
  match els with
  | [] => Ok []
  | n :: rest =>
      let? x := deref h (Some n) in
      let? ns := filter_nodes h rest in
      Ok (if is_NodeDesc (kind x) then n :: ns else ns)
  end.

Definition get_nodes (h : Heap) (self : option ElemId)
  : Outcome (list ElemId) :=
  let? els := get_elements h self in filter_nodes h els.

(** [check_phandle_target(target, target_path_match)].  The loop reads
    [target_parts[i]]; it runs only when both lists have the same
    length, so the index is in range and the [None] branch below (an
    [IndexError]) is never taken. *)
Fixpoint check_parts (i : nat) (parts target_parts : list string)
    (valid : bool) : bool :=
  match parts with
  | [] => valid
  | part :: rest =>
      if String.eqb part "ANY" then check_parts (S i) rest target_parts valid
      else
        match target_parts !! i with
        | Some t =>
            if negb (String.eqb part t)
            then check_parts (S i) rest target_parts false
            else check_parts (S i) rest target_parts valid
        | None => false
        end
  end.

Definition check_phandle_target (target : Node) (target_path_match : string)
  : bool :=
  let parts := PyStr.split_slash target_path_match in
  let target_parts := PyStr.split_slash (n_path target) in
  let valid := Nat.eqb (length parts) (length target_parts) in
  if valid then check_parts 0 parts target_parts valid else valid.

(** The statement of phandle matching in the specification's words:
    the same number of segments, and every template segment other than
    the literal [ANY] equal to the target segment at its position. *)
Definition segments_match (template target_path : string) : Prop :=
  let parts := PyStr.split_slash template in
  let target_parts := PyStr.split_slash target_path in
  length parts = length target_parts /\
  forall i part, parts !! i = Some part -> part <> "ANY" ->
                 target_parts !! i = Some part.

(** ** The validator engine ([fdt_validate.py]) *)

(** The fields of an [FdtValidator] object.  The schema heap is not
    written during validation and is passed beside it. *)
Record FdtValidator := mkVal {
  _errors : list string;
  _raise_on_error : bool;
  _schema : option ElemId;
  model_list : list string;
  submodel_list : list (string * list string)
}.

Definition set_errors (self : FdtValidator) (errs : list string)
  : FdtValidator :=
  mkVal errs (_raise_on_error self) (_schema self)
        (model_list self) (submodel_list self).

(** [FdtValidator.__init__] *)
Definition FdtValidator_init (schema : option ElemId) (raise_on_error : bool)
  : FdtValidator :=
  mkVal [] raise_on_error schema ["MODEL"] [].

(** A method of the validator: it reads and writes the object and
    either returns or raises. *)
Definition M (A : Type) : Type := FdtValidator -> Outcome A * FdtValidator.

Definition ret {A} (a : A) : M A := fun self => (Ok a, self).

Definition raise {A} (e : Exc) : M A := fun self => (Raise e, self).

Definition bind {A B} (m : M A) (k : A -> M B) : M B :=
  fun self =>
    match m self with
    | (Ok a, self') => k a self'
    | (Raise e, self') => (Raise e, self')
    end.

(** A computation that does not touch the validator. *)
Definition lift {A} (o : Outcome A) : M A := fun self => (o, self).

Notation "x <- m ;; k" := (bind m (fun x => k))
  (at level 100, m at next level, k at level 200, right associativity).
Notation "m ;; k" := (bind m (fun _ => k))
  (at level 100, k at level 200, right associativity).

(** [for x in l: body(x)] *)
Fixpoint for_each {A} (l : list A) (body : A -> M unit) : M unit :=
  match l with
  | [] => ret tt
  | x :: rest => body x ;; for_each rest body
  end.

(** [FdtValidator.fail]: the message is appended first; the exception,
    when asked for, carries [self._errors[-1]], the string just
    appended. *)
Definition fail (location msg : string) : M unit :=
  fun self =>
    let self' := set_errors self
                   (_errors self ++ [PyStr.fmt_error location msg]) in
    if _raise_on_error self'
    then (Raise (ValueError (List.last (_errors self') "")), self')
    else (Ok tt, self').

(** What the name [val] is bound to inside a [validate_prop] method:
    the validator it was called with, or whatever the method assigned
    to that name since. *)
Inductive ValBinding :=
| ValValidator
| ValInt (z : Z).

(** [FdtValidator._is_builtin_property] *)
Definition _is_builtin_property (node : option NodeRef) (prop_name : string)
  : Outcome bool :=
  match node with
  | None =>
      if String.eqb prop_name "reg" then Raise AttributeError
      else if PyStr.mem prop_name ["#address-cells"; "#size-cells"]
      then Raise AttributeError
      else Ok false
  | Some r =>
      if String.eqb prop_name "reg" && PyStr.contains_at (n_name (nr_node r))
      then Ok true
      else if PyStr.mem prop_name ["#address-cells"; "#size-cells"]
      then Ok (existsb (fun subnode => PyStr.contains_at (n_name subnode))
                 (n_subnodes (nr_node r)))
      else Ok false
  end.

(** The [while name.startswith('../')] loop of [element_present]: one
    step up both parent chains per leading segment. *)
Fixpoint walk_up (h : Heap) (nm : string) (schema_target : option ElemId)
    (node_target : option NodeRef)
  : Outcome (string * option ElemId * option NodeRef) :=
  match nm with
  | String "." (String "." (String "/" rest)) =>
      let? st := get_parent h schema_target in
      match node_target with
      | None => Raise AttributeError
      | Some nt => walk_up h rest st (node_parent nt)
      end
  | _ => Ok (nm, schema_target, node_target)
  end.

(** The names of the properties and of the subnodes of a node *)
Definition sibling_names_of (n : Node) : list string :=
  prop_keys n ++ subnode_names n.

(** One pass of the loop over [conditional_props.items()], up to the
    test: the name left after the [../] segments, [parent_props] and
    [sibling_names]. *)
Definition resolve_condition (h : Heap) (schema_parent : option ElemId)
    (parent_node : NodeRef) (rel_name : string)
  : Outcome (string * list string * list string) :=
  let? (nm, schema_target, node_target) :=
    walk_up h rel_name schema_parent (Some parent_node) in
  let? els := get_elements h schema_target in
  let? parent_props := element_names h els in
  match node_target with
  | None => Raise AttributeError
  | Some nt => Ok (nm, parent_props, sibling_names_of (nr_node nt))
  end.

(** [name in parent_props and value != (name in sibling_names)] *)
Definition condition_conflicts (value : bool)
    (r : string * list string * list string) : bool :=
  let '(nm, parent_props, sibling_names) := r in
  PyStr.mem nm parent_props
  && negb (Bool.eqb value (PyStr.mem nm sibling_names)).

(** The body of that loop: [Ok false] when the function returns
    [False] at this item. *)
Definition condition_holds (h : Heap) (schema_parent : option ElemId)
    (parent_node : NodeRef) (item : string * bool) : Outcome bool :=
  let? r := resolve_condition h schema_parent parent_node (fst item) in
  if condition_conflicts (snd item) r then Ok false else Ok true.

Fixpoint conditions_loop (h : Heap) (schema_parent : option ElemId)
    (parent_node : NodeRef) (items : list (string * bool)) : Outcome bool :=
  match items with
  | [] => Ok true
  | item :: rest =>
      let? ok := condition_holds h schema_parent parent_node item in
      if ok then conditions_loop h schema_parent parent_node rest
      else Ok false
  end.

(** [FdtValidator.element_present] *)
Definition element_present (h : Heap) (schema : ElemId)
    (parent_node : option NodeRef) : Outcome bool :=
  let? e := deref h (Some schema) in
  match conditional_props e, parent_node with
  | Some (item :: items), Some pn =>
      conditions_loop h (parent e) pn (item :: items)
  | _, _ => Ok true
  end.

(** The [expected] argument of [get_element]: [NodeDesc], [PropDesc],
    or [None]. *)
Inductive Expected := ExpNodeDesc | ExpPropDesc.

Definition expects_node (expected : option Expected) : bool :=
  match expected with
  | None | Some ExpNodeDesc => true
  | Some ExpPropDesc => false
  end.

Definition expects_prop (expected : option Expected) : bool :=
  match expected with
  | None | Some ExpPropDesc => true
  | Some ExpNodeDesc => false
  end.

(** The loop of [get_element]: the first element, in list order, that
    is present and either has the name or is a wildcard of the expected
    kind. *)
Fixpoint get_element_loop (h : Heap) (els : list ElemId) (nm : string)
    (node : option NodeRef) (expected : option Expected)
  : Outcome (option ElemId) :=
  match els with
  | [] => Ok None
  | element :: rest =>
      let? present := element_present h element node in
      if negb present then get_element_loop h rest nm node expected
      else
        let? e := deref h (Some element) in
        if String.eqb (name e) nm then Ok (Some element)
        else if expects_node expected && is_NodeAny (kind e)
        then Ok (Some element)
        else if expects_prop expected && is_PropAny (kind e)
        then Ok (Some element)
        else get_element_loop h rest nm node expected
  end.

(** [FdtValidator.get_element] *)
Definition get_element (h : Heap) (schema : option ElemId) (nm : string)
    (node : option NodeRef) (expected : option Expected)
  : Outcome (option ElemId * bool) :=
  let? els := get_elements h schema in
  let? found := get_element_loop h els nm node expected in
  match found with
  | Some element => Ok (Some element, true)
  | None =>
      match expected with
      | Some ExpPropDesc =>
          if String.eqb nm "linux,phandle" then Ok (None, false)
          else
            let? builtin := _is_builtin_property node nm in
            if builtin then Ok (None, false) else Ok (None, true)
      | _ => Ok (None, true)
      end
  end.

(** [FdtValidator.get_element_by_path] *)
Fixpoint get_element_by_parts (h : Heap) (schema : option ElemId)
    (parts : list string) : Outcome (option ElemId) :=
  match parts with
  | [] => Ok schema
  | part :: rest =>
      let? (element, _) := get_element h schema part None None in
      get_element_by_parts h element rest
  end.

Definition get_element_by_path (h : Heap) (self : FdtValidator)
    (path : string) : Outcome (option ElemId) :=
  get_element_by_parts h (_schema self) (tl (PyStr.split_slash path)).

(** *** The [validate_prop] and [validate_node] methods *)

(** [val.fail(location, msg)] with [val] as bound at the call; an
    [int] has no [fail], and the attribute is looked up before the
    arguments are evaluated. *)
Definition val_fail_at (val : ValBinding) (location : Outcome string)
    (msg : string) : M unit :=
  match val with
  | ValValidator => loc <- lift location ;; fail loc msg
  | ValInt _ => raise AttributeError
  end.

(** [re.match(pattern, v)] on a property value: only a [str] can be
    matched against a [str] pattern. *)
Definition match_value (env : Env) (pattern : string) (v : PropValue)
  : Outcome bool :=
  match v with
  | ValString s => Ok (re_match env pattern s)
  | _ => Raise TypeError
  end.

Definition PropString_validate_prop (env : Env) (str_pattern : string)
    (prop : PyArg) : M unit :=
  if String.eqb str_pattern "" then ret tt
  else
    let pattern := "^" +:+ str_pattern +:+ "$" in
    value <- lift (arg_value prop) ;;
    val_m <- lift (match_value env pattern value) ;;
    if negb val_m
    then val_fail_at ValValidator (get_node_path prop)
           ("'" +:+ arg_name prop +:+ "' value '" +:+ py_str env value
            +:+ "' does not match pattern '" +:+ pattern +:+ "'")
    else ret tt.

Definition must_be_u32 (env : Env) (val : ValBinding) (prop : PyArg)
  : M unit :=
  ty <- lift (arg_type prop) ;;
  if negb (FdtType_eqb ty TINT)
  then
    value <- lift (arg_value prop) ;;
    val_fail_at val (get_node_path prop)
      ("'" +:+ arg_name prop +:+ "' value '" +:+ py_str env value
       +:+ "' must be a u32")
  else ret tt.

Definition PropInt_validate_prop (env : Env) (prop : PyArg) : M unit :=
  must_be_u32 env ValValidator prop.

(** [PropAddressCells.validate_prop]: the second statement rebinds
    [val] to the decoded integer, and the last one calls [val.fail]. *)
Definition PropAddressCells_validate_prop (env : Env) (prop : PyArg)
  : M unit :=
  let val := ValValidator in
  must_be_u32 env val prop ;;
  value <- lift (arg_value prop) ;;
  z <- lift (fdt32_to_cpu value) ;;
  let val := ValInt z in
  if negb (Z.eqb z 1 || Z.eqb z 2)
  then val_fail_at val (get_node_path prop)
         ("'" +:+ arg_name prop +:+ "' value '" +:+ pretty z
          +:+ "' must be 1 or 2")
  else ret tt.

(** [for item in prop.value]: a [str] yields its characters, a list its
    strings, and bytes yield integers, which are no strings. *)
Fixpoint chars_of (s : string) : list string :=
  match s with
  | EmptyString => []
  | String c rest => String c EmptyString :: chars_of rest
  end.

Definition value_items (v : PropValue) : list (option string) :=
  match v with
  | ValString s => map Some (chars_of s)
  | ValStringList l => map Some l
  | ValRaw bytes => map (fun _ => None) bytes
  end.

Definition PropStringList_validate_prop (env : Env) (str_pattern : string)
    (prop : PyArg) : M unit :=
  if String.eqb str_pattern "" then ret tt
  else
    let pattern := "^" +:+ str_pattern +:+ "$" in
    value <- lift (arg_value prop) ;;
    for_each (value_items value) (fun item =>
      match item with
      | None => raise TypeError
      | Some s =>
          if negb (re_match env pattern s)
          then val_fail_at ValValidator (get_node_path prop)
                 ("'" +:+ arg_name prop +:+ "' value '" +:+ s
                  +:+ "' does not match pattern '" +:+ pattern +:+ "'")
          else ret tt
      end).

(** [PropPhandle.validate_prop]; an unresolved phandle gives [None],
    whose [path] [check_phandle_target] then reads. *)
Definition PropPhandle_validate_prop (env : Env) (target_path_match : string)
    (prop : PyArg) : M unit :=
  match prop with
  | ArgNode _ => raise AttributeError
  | ArgProp owner_path p =>
      match resolve_phandle env p with
      | None => raise AttributeError
      | Some target =>
          if negb (check_phandle_target target target_path_match)
          then fail owner_path
                 ("Phandle '" +:+ p_name p +:+ "' targets node '"
                  +:+ n_path target +:+ "' which does not match pattern '"
                  +:+ target_path_match +:+ "'")
          else ret tt
      end
  end.

(** [self.validator(val, prop)] *)
Definition run_validator (validator : CustomValidator) (prop : PyArg)
  : M unit :=
  for_each (validator prop) (fun f => fail (fst f) (snd f)).

(** [NodeAny.validate_node] *)
Definition NodeAny_validate_node (env : Env) (name_pattern : string)
    (node : PyArg) : M unit :=
  if String.eqb name_pattern "" then ret tt
  else
    let pattern := "^" +:+ name_pattern +:+ "$" in
    if negb (re_match env pattern (arg_name node))
    then
      match node with
      | ArgNode n =>
          fail (n_path (nr_node n))
            ("Node name '" +:+ arg_name node
             +:+ "' does not match pattern '" +:+ pattern +:+ "'")
      | ArgProp _ _ => raise AttributeError
      end
    else ret tt.

(** [element.validate(val, prop_or_node)], dispatched on the class. *)
Definition validate (env : Env) (e : SchemaElement) (prop_or_node : PyArg)
  : M unit :=
  match kind e with
  | KSchemaElement => ret tt
  | KPropDesc | KPropBool | KPropPhandleTarget | KPropOneOf _ => ret tt
  | KPropString str_pattern =>
      PropString_validate_prop env str_pattern prop_or_node
  | KPropInt | KPropTimestamp => PropInt_validate_prop env prop_or_node
  | KPropAddressCells => PropAddressCells_validate_prop env prop_or_node
  | KPropStringList str_pattern =>
      PropStringList_validate_prop env str_pattern prop_or_node
  | KPropPhandle target_path_match =>
      PropPhandle_validate_prop env target_path_match prop_or_node
  | KPropCustom validator => run_validator validator prop_or_node
  | KPropAny (Some validator) => run_validator validator prop_or_node
  | KPropAny None => ret tt
  | KNodeDesc | KNodeModel | KNodeSubmodel => ret tt
  | KNodeAny name_pattern | KNodeImage name_pattern
  | KNodeConfig name_pattern =>
      NodeAny_validate_node env name_pattern prop_or_node
  end.

(** *** Validation of one node and of the tree *)

(** [[e.name for e in els if isinstance(e, PropDesc) and
      self.element_present(e, node)]] *)
Fixpoint present_prop_names (h : Heap) (els : list ElemId) (node : NodeRef)
  : Outcome (list string) :=
  match els with
  | [] => Ok []
  | el :: rest =>
      let? e := deref h (Some el) in
      let? keep := (if is_PropDesc (kind e)
                    then element_present h el (Some node) else Ok false) in
      let? names := present_prop_names h rest node in
      Ok (if keep then name e :: names else names)
  end.

(** [[e.name for e in els if self.element_present(e, parent)]] *)
Fixpoint present_names (h : Heap) (els : list ElemId)
    (parent_node : option NodeRef) : Outcome (list string) :=
  match els with
  | [] => Ok []
  | el :: rest =>
      let? e := deref h (Some el) in
      let? keep := element_present h el parent_node in
      let? names := present_names h rest parent_node in
      Ok (if keep then name e :: names else names)
  end.

(** [not element or not isinstance(element, PropDesc)] *)
Definition not_a_property (h : Heap) (element : option ElemId)
  : Outcome bool :=
  match element with
  | None => Ok true
  | Some el => let? e := deref h (Some el) in Ok (negb (is_PropDesc (kind e)))
  end.

(** The message of [get_schema] for a subnode without schema *)
Definition unexpected_subnode_msg (node_name : string) (names : list string)
  : string :=
  "Unexpected subnode '" +:+ node_name +:+ "', valid list is ("
  +:+ PyStr.join ", " names +:+ ")".

(** The message of [_validate_schema] for a property without schema *)
Definition unexpected_property_msg (prop_name : string)
    (schema_props : list string) : string :=
  "Unexpected property '" +:+ prop_name +:+ "', valid list is ("
  +:+ PyStr.join ", " schema_props +:+ ")".

(** The body of the loop over [node.props.keys()] *)
Definition validate_property (h : Heap) (env : Env) (node : NodeRef)
    (schema : option ElemId) (schema_props : list string)
    (prop_name : string) : M unit :=
  if String.eqb prop_name "linux,phandle" then ret tt
  else
    found <- lift (get_element h schema prop_name (Some node)
                     (Some ExpPropDesc)) ;;
    let element := fst found in
    unusable <- lift (not_a_property h element) ;;
    if unusable
    then
      if String.eqb prop_name "phandle"
      then fail (n_path (nr_node node))
             "phandle target not valid for this node"
      else
        builtin <- lift (_is_builtin_property (Some node) prop_name) ;;
        if negb builtin
        then fail (n_path (nr_node node))
               (unexpected_property_msg prop_name schema_props)
        else ret tt
    else
      e <- lift (deref h element) ;;
      match props_get (n_props (nr_node node)) prop_name with
      | Some p => validate env e (ArgProp (n_path (nr_node node)) p)
      | None => raise AttributeError
      end.

(** The body of the loop over required properties *)
Definition check_required_prop (h : Heap) (node : NodeRef) (element : ElemId)
  : M unit :=
  e <- lift (deref h (Some element)) ;;
  skip <- lift (if negb (is_PropDesc (kind e)) then Ok true
                else let? present := element_present h element (Some node) in
                     Ok (negb present)) ;;
  if skip then ret tt
  else if required e && negb (PyStr.mem (name e) (prop_keys (nr_node node)))
  then fail (n_path (nr_node node))
         ("Required property '" +:+ name e +:+ "' missing")
  else ret tt.

(** The body of the loop over required subnodes *)
Definition check_required_subnode (h : Heap) (node : NodeRef)
    (subnode_names : list string) (element : ElemId) : M unit :=
  e <- lift (deref h (Some element)) ;;
  skip <- lift (if negb (is_NodeDesc (kind e)) || negb (required e)
                then Ok true
                else let? present := element_present h element (Some node) in
                     Ok (negb present)) ;;
  if skip then ret tt
  else if negb (PyStr.mem (name e) subnode_names)
  then
    let msg := "Missing subnode '" +:+ name e +:+ "'" in
    let msg := match subnode_names with
               | [] => msg
               | _ => msg +:+ " in " +:+ PyStr.join ", " subnode_names
               end in
    fail (n_path (nr_node node)) msg
  else ret tt.

(** [FdtValidator._validate_schema] *)
Definition _validate_schema (h : Heap) (env : Env) (node : NodeRef)
    (schema : option ElemId) : M unit :=
  s <- lift (deref h schema) ;;
  validate env s (ArgNode node) ;;
  els <- lift (get_elements h schema) ;;
  schema_props <- lift (present_prop_names h els node) ;;
  for_each (prop_keys (nr_node node))
    (validate_property h env node schema schema_props) ;;
  for_each els (check_required_prop h node) ;;
  let subnode_names := subnode_names (nr_node node) in
  for_each els (check_required_subnode h node subnode_names).

(** [FdtValidator.get_schema] *)
Definition get_schema (h : Heap) (node : NodeRef)
    (parent_schema : option ElemId) : M (option ElemId) :=
  found <- lift (get_element h parent_schema (n_name (nr_node node))
                   (node_parent node) (Some ExpNodeDesc)) ;;
  let schema := fst found in
  let needed := snd found in
  (match schema with
   | None =>
       if needed
       then
         nodes <- lift (get_nodes h parent_schema) ;;
         names <- lift (present_names h nodes (node_parent node)) ;;
         fail (PyStr.dirname (n_path (nr_node node)))
           (unexpected_subnode_msg (n_name (nr_node node)) names)
       else ret tt
   | Some _ => ret tt
   end) ;;
  ret schema.

(** [FdtValidator._validate_tree]; [up] is the parent chain of
    [node]. *)
Fixpoint _validate_tree (h : Heap) (env : Env) (node : Node)
    (up : list Node) (parent_schema : option ElemId) : M unit :=
  let ref := mkRef node up in
  resolved <-
    (if String.eqb (n_name node) "/" then ret (Some parent_schema)
     else
       schema <- get_schema h ref parent_schema ;;
       match schema with
       | None => ret None
       | Some s => ret (Some (Some s))
       end) ;;
  match resolved with
  | None => ret tt
  | Some schema =>
      _validate_schema h env ref schema ;;
      (fix subnodes_loop (l : list Node) : M unit :=
         match l with
         | [] => ret tt
         | subnode :: rest =>
             _validate_tree h env subnode (node :: up) schema ;;
             subnodes_loop rest
         end) (n_subnodes node)
  end.

(** [FdtValidator.start], from the point where the collaborator has
    delivered the document: [root] is [self._fdt.GetRoot()]. *)
Definition start (h : Heap) (env : Env) (root : Node) : M (list string) :=
  fun self =>
    let self := mkVal [] (_raise_on_error self) (_schema self) [] [] in
    (_validate_tree h env root [] (_schema self) ;;
     (fun self => (Ok (_errors self), self))) self.

(** ** The schema ([schema.py]) *)

Module Schema.

(** A constructor call waiting for the heap it allocates in. *)
Definition Ctor := Heap -> Heap * ElemId.

(** A list display [[c1(...), c2(...), ...]]: the elements are built
    left to right. *)
Fixpoint build_list (h : Heap) (ctors : list Ctor) : Heap * list ElemId :=
  match ctors with
  | [] => (h, [])
  | c :: rest =>
      let '(h1, e) := c h in
      let '(h2, es) := build_list h1 rest in
      (h2, e :: es)
  end.

Definition image_elements : list Ctor :=
  [ (fun h => PropString h "description" true "" None);
    (fun h => PropTimestamp h "timestamp" false None);
    (fun h => PropString h "arch" true "" None);
    (fun h => PropString h "type" true "" None);
    (fun h => PropString h "compression" false "" None);
    (fun h => PropInt h "data-offset" true (Some [("data", false)]));
    (fun h => PropInt h "data-size" true (Some [("data", false)]));
    (* [PropDesc('data', True, conditional_props=...)]: the second
       positional argument of [SchemaElement.__init__] is [prop_type],
       so [required] keeps its default. *)
    (fun h => PropDesc h "data" "True" false
                (Some [("data-offset", false); ("data-size", false)]));
    (fun h => PropString h "os" true "" None);
    (fun h => PropInt h "load" false None);
    (fun h => PropStringList h "capabilities" false "" None);
    (fun h => PropString h "producer" false "" None);
    (fun h => PropInt h "uncomp-size" false None);
    (fun h => PropInt h "entry-start" false None);
    (fun h => PropInt h "entry" false None);
    (fun h => PropInt h "reloc-start" false None) ].

Definition config_elements : list Ctor :=
  [ (fun h => PropString h "description" true "" None);
    (fun h => PropString h "fdt" false "" None);
    (fun h => PropStringList h "loadables" false "" None);
    (fun h => PropStringList h "compatible" false "" None);
    (fun h => PropBool h "require-fit" false None) ].

(** The objects [get_schema] returns and names: the heap, the root
    schema, [node_image] and [node_config], and the elements added last
    in the order of the calls. *)
Record Built := mkBuilt {
  heap : Heap;
  schema : ElemId;
  node_image : ElemId;
  node_config : ElemId;
  added : list ElemId
}.

(** [elem = ctor(...); node.add_element(elem)] *)
Definition add_new (h : Heap) (node : ElemId) (c : Ctor)
  : Outcome (Heap * ElemId) :=
  let '(h1, elem) := c h in
  let? h2 := add_element h1 node elem in
  Ok (h2, elem).

(** [get_schema(upl)] up to the comment "Tweak the base schema": the
    schema shared by the two variants. *)
Definition base (upl : bool) : Built :=
  let h := [] in
  let '(h, els) := build_list h image_elements in
  let '(h, node_image) :=
    NodeImage h (if upl then "image-\d+" else "[a-z-]+-\d+") els in
  let '(h, els) := build_list h config_elements in
  let '(h, node_config) :=
    NodeConfig h (if upl then "config-\d+" else "conf-\d+") els in
  let '(h, timestamp) := PropTimestamp h "timestamp" true None in
  let '(h, description) := PropString h "description" true "" None in
  let '(h, address_cells) := PropAddressCells h true None in
  let '(h, images) := NodeDesc h "images" true [node_image] None in
  let '(h, default) := PropString h "default" false "" None in
  let '(h, configurations) :=
    NodeDesc h "configurations" true [default; node_config] None in
  let '(h, schema) :=
    NodeDesc h "/" true
      [timestamp; description; address_cells; images; configurations]
      None in
  mkBuilt h schema node_image node_config [].

(** [get_schema(upl)] *)
Definition get_schema (upl : bool) : Outcome Built :=
  let b := base upl in
  let h := heap b in
  if upl then
    let? (h, project) :=
      add_new h (node_image b)
        (fun h => PropString h "project" true "" None) in
    let? (h, firmware) :=
      add_new h (node_config b)
        (fun h => PropString h "firmware" true "" None) in
    Ok (mkBuilt h (schema b) (node_image b) (node_config b)
          [project; firmware])
  else
    let? (h, kernel) :=
      add_new h (node_config b)
        (fun h => PropString h "kernel" true "" None) in
    let? (h, ramdisk) :=
      add_new h (node_config b)
        (fun h => PropString h "ramdisk" false "" None) in
    Ok (mkBuilt h (schema b) (node_image b) (node_config b)
          [kernel; ramdisk]).

End Schema.

(** ** Documents and schemas used as concrete inputs *)

Module Sample.

(** [re.match] on the patterns and names that occur below. *)
Definition sample_re_match (pattern s : string) : bool :=
  existsb (fun ps => String.eqb (fst ps) pattern && String.eqb (snd ps) s)
    [ ("^image-\d+$", "image-1");
      ("^config-\d+$", "config-1");
      ("^[a-z-]+-\d+$", "image-1");
      ("^[a-z-]+-\d+$", "kernel-1");
      ("^conf-\d+$", "conf-1") ].

Definition env : Env :=
  mkEnv sample_re_match
        (fun v => match v with
                  | ValString s => s
                  | ValStringList l => PyStr.join ", " l
                  | ValRaw _ => "<cells>"
                  end)
        (fun _ => None).

Definition str_prop (nm value : string) : string * FdtProp :=
  (nm, mkProp nm TSTRING (ValString value)).

Definition cell_prop (nm : string) (b0 b1 b2 b3 : Z) : string * FdtProp :=
  (nm, mkProp nm TINT (ValRaw [b0; b1; b2; b3])).

Definition bool_prop (nm : string) : string * FdtProp :=
  (nm, mkProp nm TBOOL (ValRaw [])).

(** The document [HEADER] of [validate_test.py] *)
Definition image_1 : Node :=
  mkNode "image-1" "/images/image-1"
    [ str_prop "description" "Image description";
      str_prop "arch" "arm64";
      str_prop "type" "kernel";
      str_prop "data" "abc";
      str_prop "os" "linux";
      str_prop "project" "linux" ] [].

Definition config_1 : Node :=
  mkNode "config-1" "/configurations/config-1"
    [ str_prop "description" "Configuration description";
      str_prop "firmware" "image-1" ] [].

Definition root_props (cells : Z) : list (string * FdtProp) :=
  [ cell_prop "timestamp" 0 1 226 64;
    str_prop "description" "This is my description";
    cell_prop "#address-cells" 0 0 0 cells ].

Definition images_node : Node := mkNode "images" "/images" [] [image_1].

Definition header : Node :=
  mkNode "/" "/" (root_props 1)
    [ images_node;
      mkNode "configurations" "/configurations" [] [config_1] ].

(** [HEADER] without the lines naming [project] and [firmware]
    ([test_missing]) *)
Definition header_missing : Node :=
  mkNode "/" "/" (root_props 1)
    [ mkNode "images" "/images" []
        [ mkNode "image-1" "/images/image-1"
            [ str_prop "description" "Image description";
              str_prop "arch" "arm64";
              str_prop "type" "kernel";
              str_prop "data" "abc";
              str_prop "os" "linux" ] [] ];
      mkNode "configurations" "/configurations" []
        [ mkNode "config-1" "/configurations/config-1"
            [ str_prop "description" "Configuration description" ] [] ] ].

(** [HEADER + EXTRA] ([test_extra]) *)
Definition wibble : Node :=
  mkNode "wibble" "/wibble" [bool_prop "something"] [].

Definition header_extra : Node :=
  mkNode "/" "/" (root_props 1)
    [ mkNode "images" "/images" [bool_prop "extra-prop"] [image_1];
      mkNode "configurations" "/configurations" [] [config_1];
      wibble ].

(** A node with a unit address: [memory@0 { reg = <0>; #size-cells = <1>; }] *)
Definition memory_0 : Node :=
  mkNode "memory@0" "/memory@0"
    [ cell_prop "reg" 0 0 0 0; cell_prop "#size-cells" 0 0 0 1 ] [].

(** [HEADER] with [#address-cells = <3>] *)
Definition header_cells3 : Node :=
  mkNode "/" "/" (root_props 3)
    [ mkNode "images" "/images" [] [image_1];
      mkNode "configurations" "/configurations" [] [config_1] ].

(** [NodeDesc('/', True, [NodeAny('', []), NodeDesc('images', True, [])])]:
    a node wildcard listed before an element with a name. *)
Definition wildcard_first : Heap * ElemId :=
  let h := [] in
  let '(h, any) := NodeAny h "" [] in
  let '(h, images) := NodeDesc h "images" true [] None in
  NodeDesc h "/" true [any; images] None.

Definition wildcard_first_heap : Heap := fst wildcard_first.
Definition wildcard_first_schema : ElemId := snd wildcard_first.

(** [NodeImage('', [PropInt('data-offset', True,
    conditional_props={'data': False})])]: a condition on a name the
    node does not list. *)
Definition unlisted : Heap * ElemId :=
  let '(h, data_offset) :=
    PropInt [] "data-offset" true (Some [("data", false)]) in
  let '(h, _) := NodeImage h "" [data_offset] in
  (h, data_offset).

Definition unlisted_heap : Heap := fst unlisted.
Definition unlisted_element : ElemId := snd unlisted.

(** [node_image = NodeImage('', [PropDesc('data', 'data')])] followed by
    [node_image.add_element(PropInt('data-offset', True,
    conditional_props={'data': False}))]: a conditional element added
    after construction. *)
Definition added_conditional : Heap * ElemId :=
  let '(h, data) := PropDesc [] "data" "data" false None in
  let '(h, node_image) := NodeImage h "" [data] in
  let '(h, data_offset) :=
    PropInt h "data-offset" true (Some [("data", false)]) in
  match add_element h node_image data_offset with
  | Ok h => (h, data_offset)
  | Raise _ => ([], data_offset)
  end.

Definition added_conditional_heap : Heap := fst added_conditional.
Definition added_conditional_element : ElemId := snd added_conditional.

(** The image node of [HEADER] without the line naming [project] *)
Definition image_1_missing : Node :=
  mkNode "image-1" "/images/image-1"
    [ str_prop "description" "Image description";
      str_prop "arch" "arm64";
      str_prop "type" "kernel";
      str_prop "data" "abc";
      str_prop "os" "linux" ] [].

(** [HEADER] without its [configurations] node *)
Definition images_only : Node :=
  mkNode "/" "/" (root_props 1) [images_node].

(** The [images] node of [HEADER + EXTRA] *)
Definition images_extra : Node :=
  mkNode "images" "/images" [bool_prop "extra-prop"] [image_1].

(** [flag = PropBool('flag'); NodeDesc('first', False, [flag])]: an
    element that a node lists already. *)
Definition shared_heap : Heap :=
  let '(h, flag) := PropBool [] "flag" false None in
  fst (NodeDesc h "first" false [flag] None).

(** [NodeDesc('/', True, [PropString('variant'), NodeDesc('sub', False,
    [PropInt('x', conditional_props={'../variant': True})])])] and a
    document [/ { variant = "a"; sub { x = <1>; }; };] *)
Definition variant_heap : Heap :=
  let '(h, variant) := PropString [] "variant" false "" None in
  let '(h, x) := PropInt h "x" false (Some [("../variant", true)]) in
  let '(h, sub) := NodeDesc h "sub" false [x] None in
  fst (NodeDesc h "/" true [variant; sub] None).

Definition variant_sub : Node :=
  mkNode "sub" "/sub" [cell_prop "x" 0 0 0 1] [].

Definition variant_root : Node :=
  mkNode "/" "/" [str_prop "variant" "a"] [variant_sub].

(** What [schema.get_schema(upl)] returns *)
Definition built (upl : bool) : Schema.Built :=
  match Schema.get_schema upl with
  | Ok b => b
  | Raise _ => Schema.mkBuilt [] 0 0 0 []
  end.

(** The heap of [get_schema(False)] when
    [node_config.add_element(PropString('kernel', True))] is called,
    with the argument already built, and the heap after the call. *)
Definition before_kernel : Heap :=
  fst (PropString (Schema.heap (Schema.base false)) "kernel" true "" None).

Definition after_kernel : Heap :=
  match add_element before_kernel 22 30 with
  | Ok h => h
  | Raise _ => []
  end.

(** [FdtValidator(schema.get_schema(upl), raise_on_error).start(...)]
    on an already parsed document *)
Definition run (upl raise_on_error : bool) (root : Node)
  : Outcome (Outcome (list string) * FdtValidator) :=
  let? b := Schema.get_schema upl in
  Ok (start (Schema.heap b) env root
        (FdtValidator_init (Some (Schema.schema b)) raise_on_error)).

End Sample.


(** ** Vocabulary of the statements *)

(** The validator with [raise_on_error] set to [b] *)
Definition with_raise (self : FdtValidator) (b : bool) : FdtValidator :=
  mkVal (_errors self) b (_schema self) (model_list self)
        (submodel_list self).

(** [get_element] passes over [el]: it is absent, or present with
    another name and no wildcard of the expected kind. *)
Definition skips (h : Heap) (nm : string) (node : option NodeRef)
    (expected : option Expected) (el : ElemId) : bool :=
  match h !! el, element_present h el node with
  | Some e, Ok false => true
  | Some e, Ok true =>
      negb (String.eqb (name e) nm)
      && negb (expects_node expected && is_NodeAny (kind e))
      && negb (expects_prop expected && is_PropAny (kind e))
  | _, _ => false
  end.

(** [get_element] returns at [el]: it is present and has the name or
    is a wildcard of the expected kind. *)
Definition accepts (h : Heap) (nm : string) (node : option NodeRef)
    (expected : option Expected) (el : ElemId) : bool :=
  match h !! el, element_present h el node with
  | Some e, Ok true =>
      String.eqb (name e) nm
      || (expects_node expected && is_NodeAny (kind e))
      || (expects_prop expected && is_PropAny (kind e))
  | _, _ => false
  end.

(** [el] is present and carries exactly the name looked up. *)
Definition exact_match (h : Heap) (nm : string) (node : option NodeRef)
    (el : ElemId) : bool :=
  match h !! el, element_present h el node with
  | Some e, Ok true => String.eqb (name e) nm
  | _, _ => false
  end.

(** Exact-name priority as the specification words it: whenever some
    listed element is an exact match, the lookup returns an exact
    match. *)
Definition exact_name_priority (h : Heap) (schema : option ElemId)
    (nm : string) (node : option NodeRef) (expected : option Expected)
  : Prop :=
  forall els x,
    get_elements h schema = Ok els ->
    In x els ->
    exact_match h nm node x = true ->
    exists y, get_element h schema nm node expected = Ok (Some y, true)
              /\ exact_match h nm node y = true.

(** A condition whose walk up the two parent chains succeeds. *)
Definition resolves (h : Heap) (schema_parent : option ElemId)
    (parent_node : NodeRef) (item : string * bool) : bool :=
  match resolve_condition h schema_parent parent_node (fst item) with
  | Ok _ => true
  | Raise _ => false
  end.

(** Conditional presence as the specification words it: present exactly
    when every condition's expectation equals the actual presence of
    the name among the resolved node's properties and subnodes. *)
Definition presence_as_specified (h : Heap) (schema : ElemId)
    (parent_node : NodeRef) : Prop :=
  forall e conds b,
    h !! schema = Some e ->
    conditional_props e = Some conds ->
    element_present h schema (Some parent_node) = Ok b ->
    (b = true <->
     forall rel value nm parent_props sibling_names,
       In (rel, value) conds ->
       resolve_condition h (parent e) parent_node rel
         = Ok (nm, parent_props, sibling_names) ->
       value = PyStr.mem nm sibling_names).

(** A method that reports the findings [fs], in this order, and then
    ends with [o]: that is its run when findings accumulate; when the
    first finding raises, the run stops there with that finding as the
    last entry of the list. *)
Definition Reports {A} (m : M A) (fs : list string) (o : Outcome A)
  : Prop :=
  forall self,
    m self =
    if _raise_on_error self
    then match fs with
         | [] => (o, self)
         | f :: _ => (Raise (ValueError f),
                      set_errors self (_errors self ++ [f]))
         end
    else (o, set_errors self (_errors self ++ fs)).

Definition Reporting {A} (m : M A) : Prop :=
  exists fs o, Reports m fs o.

(** The abort as the specification words it: the finding a run with
    [raise_on_error] ends on is surfaced instead of being accumulated
    in the error list. *)
Definition surfaced_not_accumulated (h : Heap) (env : Env) (root : Node)
    (self : FdtValidator) : Prop :=
  forall f self',
    start h env root (with_raise self true) = (Raise (ValueError f), self') ->
    ~ In f (_errors self').

(** ** The command line ([validate.py]) *)

Module Cli.

(** The [Namespace] that [parse_args] returns: one attribute per
    argument the parser declares ([--raise-on-error], [--upl],
    [files]). *)
Record Args := mkArgs {
  raise_on_error : bool;
  upl : bool;
  files : list string
}.

(** [args.debug]: the parser declares no such argument, and a
    [Namespace] has no other attributes. *)
Definition args_debug (args : Args) : Outcome bool := Raise AttributeError.

(** [show_errors(fname, errors)]: the lines it prints to stderr *)
Definition show_errors (fname : string) (errors : list string)
  : list string :=
  (fname +:+ ":") :: errors ++ [""].

(** What the [try] block has done when it ends: the validator, the flag
    [found_errors] and the lines on stderr; it ends normally or on the
    exception that left [validator.start]. *)
Record LoopState := mkLoop {
  validator : FdtValidator;
  found_errors : bool;
  stderr : list string
}.

(** [for fname in args.files: ...]; [document fname] is the root node of
    the tree the collaborator delivers for that file. *)
Fixpoint files_loop (h : Heap) (env : Env) (document : string -> Node)
    (fnames : list string) (st : LoopState) : Outcome unit * LoopState :=
  match fnames with
  | [] => (Ok tt, st)
  | fname :: rest =>
      match start h env (document fname) (validator st) with
      | (Ok errors, self) =>
          let found := match errors with
                       | [] => found_errors st
                       | _ => true
                       end in
          let out := match errors with
                     | [] => stderr st
                     | _ => stderr st ++ show_errors fname errors
                     end in
          files_loop h env document rest (mkLoop self found out)
      | (Raise e, self) =>
          (Raise e, mkLoop self (found_errors st) (stderr st))
      end
  end.

(** [run_fit_validate], from the parsed arguments on: the exit status
    it returns or the exception it ends with, and the lines on
    stderr. *)
Definition run_fit_validate (env : Env) (document : string -> Node)
    (args : Args) : Outcome nat * list string :=
  match Schema.get_schema (upl args) with
  | Raise e => (Raise e, [])
  | Ok b =>
      let validator :=
        FdtValidator_init (Some (Schema.schema b)) (raise_on_error args) in
      let found_errors := false in
      match files_loop (Schema.heap b) env document (files args)
              (mkLoop validator found_errors []) with
      | (Ok _, st) =>
          (Ok (if Cli.found_errors st then 1 else 0), stderr st)
      | (Raise (ValueError exc), st) =>
          match args_debug args with
          | Raise e => (Raise e, stderr st)
          | Ok true => (Raise (ValueError exc), stderr st)
          | Ok false => (Ok 1, stderr st ++ ["Failed: " +:+ exc])
          end
      | (Raise e, st) => (Raise e, stderr st)
      end
  end.

End Cli.

(** ** Vocabulary of the further statements *)

(** [k] leading [../] segments before [nm] *)
Fixpoint dotdot (k : nat) (nm : string) : string :=
  match k with
  | 0 => nm
  | S k' => "../" +:+ dotdot k' nm
  end.

(** [nm.startswith('../')] *)
Definition starts_dotdot (nm : string) : bool :=
  match nm with
  | String "." (String "." (String "/" _)) => true
  | _ => false
  end.

(** [k] steps up the schema parent chain *)
Fixpoint schema_up (h : Heap) (k : nat) (r : option ElemId)
  : Outcome (option ElemId) :=
  match k with
  | 0 => Ok r
  | S k' => let? p := get_parent h r in schema_up h k' p
  end.

(** [k] steps up the parent chain of a node *)
Fixpoint node_up (k : nat) (r : NodeRef) : option NodeRef :=
  match k with
  | 0 => Some r
  | S k' =>
      match node_parent r with
      | Some p => node_up k' p
      | None => None
      end
  end.

(** An element reference that can be read and whose presence on [node]
    can be decided. *)
Definition evaluates (h : Heap) (node : option NodeRef) (el : ElemId)
  : bool :=
  match h !! el, element_present h el node with
  | Some _, Ok _ => true
  | _, _ => false
  end.

(** A present, required property element that [node] has no property
    for. *)
Definition required_prop_missing (h : Heap) (node : NodeRef) (el : ElemId)
  : bool :=
  match h !! el, element_present h el (Some node) with
  | Some e, Ok true =>
      is_PropDesc (kind e) && required e
      && negb (PyStr.mem (name e) (prop_keys (nr_node node)))
  | _, _ => false
  end.

(** A present, required node element that [node] has no subnode
    for. *)
Definition required_subnode_missing (h : Heap) (node : NodeRef)
    (el : ElemId) : bool :=
  match h !! el, element_present h el (Some node) with
  | Some e, Ok true =>
      is_NodeDesc (kind e) && required e
      && negb (PyStr.mem (name e) (subnode_names (nr_node node)))
  | _, _ => false
  end.

(** The name of the element behind a reference *)
Definition name_of (h : Heap) (el : ElemId) : string :=
  match h !! el with
  | Some e => name e
  | None => ""
  end.

Definition required_property_msg (nm : string) : string :=
  "Required property '" +:+ nm +:+ "' missing".

Definition missing_subnode_msg (nm : string) (subnode_names : list string)
  : string :=
  match subnode_names with
  | [] => "Missing subnode '" +:+ nm +:+ "'"
  | _ => ("Missing subnode '" +:+ nm +:+ "'") +:+ " in "
         +:+ PyStr.join ", " subnode_names
  end.



(** A property class whose [validate_prop] calls no injected
    function. *)
Definition plain_property (k : ElemKind) : bool :=
  match k with
  | KPropCustom _ | KPropAny (Some _) => false
  | _ => is_PropDesc k
  end.

(** The names the property loop treats apart from the schema *)
Definition special_property_names : list string :=
  ["linux,phandle"; "phandle"; "reg"; "#address-cells"; "#size-cells"].

(** The list [validator.start(fname)] returns for a file, empty when
    the call raises *)
Definition file_errors (h : Heap) (env : Env) (document : string -> Node)
    (self : FdtValidator) (fname : string) : list string :=
  match fst (start h env (document fname) self) with
  | Ok errors => errors
  | Raise _ => []
  end.

(** What [run_fit_validate] prints for a file: nothing for an empty
    list *)
Definition file_report (h : Heap) (env : Env) (document : string -> Node)
    (self : FdtValidator) (fname : string) : list string :=
  match file_errors h env document self fname with
  | [] => []
  | errors => Cli.show_errors fname errors
  end.

Definition has_findings (h : Heap) (env : Env) (document : string -> Node)
    (self : FdtValidator) (fname : string) : bool :=
  match file_errors h env document self fname with
  | [] => false
  | _ => true
  end.

(** Two documents by file name *)
Definition two_documents (fname : string) : Node :=
  if String.eqb fname "base.dts" then Sample.header
  else Sample.header_missing.

(** * Properties *)

(** ** Phandle target matching *)

Lemma check_parts_false i parts target_parts :
  check_parts i parts target_parts false = false.
Proof.
  revert i. induction parts as [|part rest IH]; intros i; simpl; [done|].
  destruct (String.eqb part "ANY"); [apply IH|].
  destruct (target_parts !! i) as [t|]; [|done].
  destruct (negb (String.eqb part t)); apply IH.
Qed.

Lemma check_parts_true i parts target_parts :
  check_parts i parts target_parts true = true <->
  forall j part, parts !! j = Some part -> part <> "ANY" ->
                 target_parts !! (i + j) = Some part.
Proof.
  revert i. induction parts as [|part rest IH]; intros i; simpl.
  - split; [intros _ j part Hj; destruct j; discriminate | done].
  - destruct (String.eqb part "ANY") eqn:Hany.
    + apply String.eqb_eq in Hany. rewrite IH. split.
      * intros H [|j] p Hj Hp; simpl in Hj.
        -- congruence.
        -- replace (i + S j) with (S i + j) by lia. by apply H.
      * intros H j p Hj Hp.
        replace (S i + j) with (i + S j) by lia. by apply H.
    + apply String.eqb_neq in Hany.
      destruct (target_parts !! i) as [t|] eqn:Ht.
      * destruct (String.eqb part t) eqn:Heq; simpl.
        -- apply String.eqb_eq in Heq. subst t. rewrite IH. split.
           ++ intros H [|j] p Hj Hp; simpl in Hj.
              ** replace (i + 0) with i by lia. congruence.
              ** replace (i + S j) with (S i + j) by lia. by apply H.
           ++ intros H j p Hj Hp.
              replace (S i + j) with (i + S j) by lia. by apply H.
        -- apply String.eqb_neq in Heq. rewrite check_parts_false.
           split; [done|]. intros H.
           specialize (H 0 part eq_refl Hany).
           replace (i + 0) with i in H by lia. congruence.
      * split; [done|]. intros H.
        specialize (H 0 part eq_refl Hany).
        replace (i + 0) with i in H by lia. congruence.
Qed.

(** C4. [check_phandle_target] returns [True] exactly when template and
    target path split into the same number of segments and every
    template segment other than [ANY] equals the target segment at its
    position; the template [/a/ANY/b] matches [/a/x/b] and rejects
    [/a/x/y] and [/a/b]. *)
Theorem check_phandle_target_iff_segments_match :
  (forall (target : Node) (target_path_match : string),
      check_phandle_target target target_path_match = true <->
      segments_match target_path_match (n_path target)) /\
  (forall nm props subnodes,
      check_phandle_target (mkNode nm "/a/x/b" props subnodes) "/a/ANY/b"
        = true /\
      check_phandle_target (mkNode nm "/a/x/y" props subnodes) "/a/ANY/b"
        = false /\
      check_phandle_target (mkNode nm "/a/b" props subnodes) "/a/ANY/b"
        = false).
Proof.
  split.
  - intros target tpm. unfold check_phandle_target, segments_match.
    destruct (Nat.eqb _ _) eqn:Hlen.
    + apply Nat.eqb_eq in Hlen. rewrite check_parts_true. simpl. tauto.
    + apply Nat.eqb_neq in Hlen. split; [done | tauto].
  - intros nm props subnodes. repeat split; reflexivity.
Qed.

(** ** Findings and the two modes of [fail] *)

Lemma set_errors_same self : set_errors self (_errors self ++ []) = self.
Proof. destruct self. unfold set_errors. simpl. by rewrite app_nil_r. Qed.

Lemma fail_last es f : List.last (es ++ [f]) "" = f.
Proof. apply last_last. Qed.

Lemma fail_run location msg self :
  fail location msg self =
  let f := PyStr.fmt_error location msg in
  ((if _raise_on_error self then Raise (ValueError f) else Ok tt),
   set_errors self (_errors self ++ [f])).
Proof.
  unfold fail. simpl. destruct (_raise_on_error self); [|done].
  by rewrite fail_last.
Qed.

Lemma reports_lift {A} (o : Outcome A) : Reports (lift o) [] o.
Proof.
  intros self. unfold lift. rewrite set_errors_same.
  by destruct (_raise_on_error self).
Qed.

Lemma reports_ret {A} (a : A) : Reports (ret a) [] (Ok a).
Proof. apply (reports_lift (Ok a)). Qed.

Lemma reports_raise {A} (e : Exc) : Reports (@raise A e) [] (Raise e).
Proof. apply (reports_lift (Raise e)). Qed.

Lemma reports_fail location msg :
  Reports (fail location msg) [PyStr.fmt_error location msg] (Ok tt).
Proof.
  intros self. rewrite fail_run. simpl. by destruct (_raise_on_error self).
Qed.

Lemma reports_bind_ok {A B} (m : M A) (k : A -> M B) fs a fs' o :
  Reports m fs (Ok a) -> Reports (k a) fs' o ->
  Reports (bind m k) (fs ++ fs') o.
Proof.
  intros Hm Hk self. unfold bind. rewrite Hm.
  destruct (_raise_on_error self) eqn:Hr.
  - destruct fs as [|f fs]; simpl; [|done].
    rewrite Hk, Hr. done.
  - rewrite Hk. simpl. rewrite Hr. by rewrite app_assoc.
Qed.

Lemma reports_bind_raise {A B} (m : M A) (k : A -> M B) fs e :
  Reports m fs (Raise e) -> Reports (bind m k) fs (Raise e).
Proof.
  intros Hm self. unfold bind. rewrite Hm.
  destruct (_raise_on_error self); [|done].
  by destruct fs.
Qed.

Lemma reporting_lift {A} (o : Outcome A) : Reporting (lift o).
Proof. eexists _, _. apply reports_lift. Qed.

Lemma reporting_ret {A} (a : A) : Reporting (ret a).
Proof. eexists _, _. apply reports_ret. Qed.

Lemma reporting_raise {A} (e : Exc) : Reporting (@raise A e).
Proof. eexists _, _. apply reports_raise. Qed.

Lemma reporting_fail location msg : Reporting (fail location msg).
Proof. eexists _, _. apply reports_fail. Qed.

Lemma reporting_bind {A B} (m : M A) (k : A -> M B) :
  Reporting m -> (forall a, Reporting (k a)) -> Reporting (bind m k).
Proof.
  intros (fs & o & Hm) Hk. destruct o as [a|e].
  - destruct (Hk a) as (fs' & o' & Hk').
    eexists _, _. by eapply reports_bind_ok.
  - eexists _, _. by eapply reports_bind_raise.
Qed.

Lemma reporting_for_each {A} (l : list A) (body : A -> M unit) :
  (forall x, Reporting (body x)) -> Reporting (for_each l body).
Proof.
  intros Hbody. induction l as [|x rest IH]; simpl.
  - apply reporting_ret.
  - apply reporting_bind; [apply Hbody | intros _; apply IH].
Qed.

(** Splits a method along its binds, loops and branches down to the
    four primitives. *)
Ltac reporting :=
  repeat first
    [ apply reporting_lift | apply reporting_ret | apply reporting_raise
    | apply reporting_fail
    | apply reporting_bind; [|intros ?]
    | apply reporting_for_each; intros ?
    | match goal with
      | |- Reporting (if ?b then _ else _) => destruct b
      | |- Reporting (match ?x with _ => _ end) => destruct x
      end ].

Lemma reporting_val_fail_at val location msg :
  Reporting (val_fail_at val location msg).
Proof. unfold val_fail_at. reporting. Qed.

Lemma reporting_validate env e prop_or_node :
  Reporting (validate env e prop_or_node).
Proof.
  unfold validate, PropString_validate_prop, PropInt_validate_prop,
    PropAddressCells_validate_prop, PropStringList_validate_prop,
    PropPhandle_validate_prop, NodeAny_validate_node, run_validator,
    must_be_u32.
  destruct (kind e); reporting; apply reporting_val_fail_at.
Qed.

Lemma reporting_validate_property h env node schema schema_props prop_name :
  Reporting (validate_property h env node schema schema_props prop_name).
Proof.
  unfold validate_property. reporting; apply reporting_validate.
Qed.

Lemma reporting_validate_schema h env node schema :
  Reporting (_validate_schema h env node schema).
Proof.
  unfold _validate_schema, check_required_prop, check_required_subnode.
  apply reporting_bind; [apply reporting_lift | intros s].
  apply reporting_bind; [apply reporting_validate | intros _].
  apply reporting_bind; [apply reporting_lift | intros els].
  apply reporting_bind; [apply reporting_lift | intros schema_props].
  apply reporting_bind;
    [apply reporting_for_each; intros ?; apply reporting_validate_property
    | intros _].
  reporting.
Qed.

Lemma reporting_get_schema h node parent_schema :
  Reporting (get_schema h node parent_schema).
Proof. unfold get_schema. reporting. Qed.

(** Induction on a devicetree: a property of a node follows from the
    property of its subnodes. *)
Lemma Node_tree_ind (P : Node -> Prop) :
  (forall nm path props subnodes,
      Forall P subnodes -> P (mkNode nm path props subnodes)) ->
  forall n, P n.
Proof.
  intros H. fix IH 1. intros [nm path props subnodes]. apply H.
  induction subnodes as [|s rest IHrest]; constructor;
    [apply IH | apply IHrest].
Qed.

Lemma reporting_validate_tree h env node :
  forall up parent_schema,
    Reporting (_validate_tree h env node up parent_schema).
Proof.
  induction node as [nm path props subnodes IH] using Node_tree_ind.
  intros up parent_schema. simpl.
  apply reporting_bind.
  - destruct (String.eqb nm "/"); [apply reporting_ret|].
    apply reporting_bind; [apply reporting_get_schema|].
    intros [s|]; apply reporting_ret.
  - intros [schema|]; [|apply reporting_ret].
    apply reporting_bind; [apply reporting_validate_schema | intros _].
    generalize (mkNode nm path props subnodes :: up). intros up'.
    induction IH as [|subnode rest Hsub _ IHrest]; [apply reporting_ret|].
    apply reporting_bind; [apply Hsub | intros _; apply IHrest].
Qed.

Lemma start_run h env root self fs o :
  Reports (_validate_tree h env root [] (_schema self)) fs o ->
  (start h env root (with_raise self false) =
   (match o with Ok _ => Ok fs | Raise e => Raise e end,
    mkVal fs false (_schema self) [] [])) /\
  (start h env root (with_raise self true) =
   match fs with
   | [] => (match o with Ok _ => Ok [] | Raise e => Raise e end,
            mkVal [] true (_schema self) [] [])
   | f :: _ => (Raise (ValueError f), mkVal [f] true (_schema self) [] [])
   end).
Proof.
  intros H. unfold start, bind, with_raise; simpl. rewrite !H; simpl. split.
  - by destruct o.
  - destruct fs; [by destruct o | done].
Qed.

(** C7 (amended). [fail] appends ["{location}: {message}"] to the error
    list in both modes.  With [raise_on_error] set it then raises
    [ValueError] with that string, and nothing after it runs: a run of
    [start] ends on its first finding, which is the single entry of the
    error list and the exception the caller gets.  With
    [raise_on_error] unset [fail] returns, the findings accumulate in
    order, and a run that returns gives the whole list. *)
Theorem fail_appends_then_raises :
  (forall (B : Type) location msg (k : unit -> M B) self,
      bind (fail location msg) k (with_raise self true) =
      (Raise (ValueError (PyStr.fmt_error location msg)),
       set_errors (with_raise self true)
         (_errors self ++ [PyStr.fmt_error location msg]))) /\
  (forall location msg self,
      fail location msg (with_raise self false) =
      (Ok tt,
       set_errors (with_raise self false)
         (_errors self ++ [PyStr.fmt_error location msg]))) /\
  (forall h env root self,
      let acc := start h env root (with_raise self false) in
      let abr := start h env root (with_raise self true) in
      (fst acc = Ok (_errors (snd acc)) \/ exists e, fst acc = Raise e) /\
      match _errors (snd acc) with
      | [] => fst abr = fst acc /\ _errors (snd abr) = []
      | f :: _ => fst abr = Raise (ValueError f) /\ _errors (snd abr) = [f]
      end).
Proof.
  split; [|split].
  - intros B location msg k self. unfold bind. by rewrite fail_run.
  - intros location msg self. by rewrite fail_run.
  - intros h env root self.
    destruct (reporting_validate_tree h env root [] (_schema self))
      as (fs & o & H).
    destruct (start_run h env root self fs o H) as [Hacc Habr].
    simpl. rewrite Hacc, Habr. simpl. split.
    + destruct o; eauto.
    + by destruct fs.
Qed.

(** C7, as stated, fails: with [raise_on_error] set, the run over
    [HEADER + EXTRA] ends on its first finding, and that finding is in
    the error list. *)
Lemma raise_on_error_finding_is_accumulated :
  ~ surfaced_not_accumulated
      (Schema.heap (Sample.built true)) Sample.env Sample.header_extra
      (FdtValidator_init (Some (Schema.schema (Sample.built true))) false).
Proof.
  intros H.
  apply (H "/images: Unexpected property 'extra-prop', valid list is ()"
           (mkVal ["/images: Unexpected property 'extra-prop', valid list is ()"]
                  true (Some 29) [] [])).
  - vm_compute. reflexivity.
  - simpl. by left.
Qed.

(** ** Element lookup *)

Lemma skips_step h nm node expected el rest :
  skips h nm node expected el = true ->
  get_element_loop h (el :: rest) nm node expected =
  get_element_loop h rest nm node expected.
Proof.
  unfold skips. simpl. unfold deref.
  destruct (h !! el) as [e|] eqn:He; [|done].
  destruct (element_present h el node) as [[|]|]; simpl; try done.
  intros H. apply andb_prop in H as [H H3]. apply andb_prop in H as [H1 H2].
  apply negb_true_iff in H1, H2, H3. by rewrite H1, H2, H3.
Qed.

Lemma accepts_step h nm node expected el rest :
  accepts h nm node expected el = true ->
  get_element_loop h (el :: rest) nm node expected = Ok (Some el).
Proof.
  unfold accepts. simpl. unfold deref.
  destruct (h !! el) as [e|] eqn:He; [|done].
  destruct (element_present h el node) as [[|]|]; simpl; try done.
  destruct (String.eqb (name e) nm); [done|].
  destruct (expects_node expected && is_NodeAny (kind e)); [done|].
  destruct (expects_prop expected && is_PropAny (kind e)); [done|].
  done.
Qed.

Lemma get_element_loop_first h nm node expected pre x post :
  forallb (skips h nm node expected) pre = true ->
  accepts h nm node expected x = true ->
  get_element_loop h (pre ++ x :: post) nm node expected = Ok (Some x).
Proof.
  intros Hpre Hx. induction pre as [|el pre IH].
  - by apply accepts_step.
  - simpl in Hpre. apply andb_prop in Hpre as [Hel Hpre].
    rewrite <- app_comm_cons, skips_step by done. by apply IH.
Qed.

Lemma get_element_loop_none h nm node expected els :
  forallb (skips h nm node expected) els = true ->
  get_element_loop h els nm node expected = Ok None.
Proof.
  intros Hels. induction els as [|el els IH]; [done|].
  simpl in Hels. apply andb_prop in Hels as [Hel Hels].
  rewrite skips_step by done. by apply IH.
Qed.

(** C1 (amended). [get_element] returns the first element of the
    schema's list, in list order, that passes [element_present] and
    either has the name looked up or is a wildcard of the expected
    kind.  An exact-name element is returned when no such wildcard
    stands before it; a wildcard that stands before it is returned in
    its place. *)
Theorem get_element_first_match h schema nm node expected pre x post :
  get_elements h schema = Ok (pre ++ x :: post) ->
  forallb (skips h nm node expected) pre = true ->
  accepts h nm node expected x = true ->
  get_element h schema nm node expected = Ok (Some x, true).
Proof.
  intros Hels Hpre Hx. unfold get_element. rewrite Hels. simpl.
  by rewrite get_element_loop_first.
Qed.

(** In the root schema of [schema.py], [images] is found after the
    three property elements before it are passed over. *)
Lemma get_element_first_match_witness :
  get_element (Schema.heap (Sample.built true))
    (Some (Schema.schema (Sample.built true))) "images"
    (Some (mkRef Sample.header [])) (Some ExpNodeDesc)
  = Ok (Some 26, true).
Proof.
  apply (get_element_first_match _ _ _ _ _ [23; 24; 25] 26 [28]);
    vm_compute; reflexivity.
Defined.

(** C1, as stated, fails: in a schema that lists a node wildcard before
    the element named [images], looking up [images] returns the
    wildcard. *)
Lemma wildcard_before_exact_name_wins :
  ~ exact_name_priority Sample.wildcard_first_heap
      (Some Sample.wildcard_first_schema) "images"
      (Some (mkRef Sample.header [])) (Some ExpNodeDesc).
Proof.
  intros H.
  destruct (H [0; 1] 1) as (y & Hy & Hexact); [done | by right; left | done |].
  vm_compute in Hy. injection Hy as <-. vm_compute in Hexact. discriminate.
Qed.

(** ** Conditional presence *)

Lemma conditions_loop_spec h schema_parent pn conds :
  forallb (resolves h schema_parent pn) conds = true ->
  exists b,
    conditions_loop h schema_parent pn conds = Ok b /\
    (b = true <->
     forall rel value r,
       In (rel, value) conds ->
       resolve_condition h schema_parent pn rel = Ok r ->
       condition_conflicts value r = false).
Proof.
  induction conds as [|[rel value] rest IH]; simpl; intros Hres.
  - exists true. split; [done|]. split; [intros _ ? ? ? [] | done].
  - apply andb_prop in Hres as [Hitem Hrest].
    destruct (IH Hrest) as (b & Hloop & Hb). clear IH.
    unfold resolves in Hitem. unfold condition_holds. simpl in *.
    destruct (resolve_condition h schema_parent pn rel) as [r|] eqn:Hr;
      [|done]. simpl.
    destruct (condition_conflicts value r) eqn:Hc.
    + exists false. split; [done|]. split; [done|]. intros H.
      specialize (H rel value r (or_introl eq_refl) Hr). congruence.
    + exists b. split; [done|]. rewrite Hb. split.
      * intros H rel' value' r' [Heq|Hin] Hr'.
        -- injection Heq as <- <-. congruence.
        -- by eapply H.
      * intros H rel' value' r' Hin. apply H. by right.
Qed.

Lemma condition_conflicts_false value nm parent_props sibling_names :
  condition_conflicts value (nm, parent_props, sibling_names) = false <->
  (PyStr.mem nm parent_props = true -> value = PyStr.mem nm sibling_names).
Proof.
  unfold condition_conflicts.
  destruct (PyStr.mem nm parent_props), value, (PyStr.mem nm sibling_names);
    simpl; intuition congruence.
Qed.

(** C3 (amended). An element without [conditional_props] is present.
    For an element with conditions that all resolve (one step up both
    parent chains per leading [../]), [element_present] returns [True]
    exactly when every condition whose remaining name is the name of an
    element listed by the resolved schema parent has its expectation
    equal to the presence of that name among the resolved node's
    properties and subnodes; a condition on a name the schema parent
    does not list is ignored. *)
Theorem element_present_iff_listed_conditions_agree h schema e pn :
  h !! schema = Some e ->
  (conditional_props e = None \/ conditional_props e = Some [] ->
   element_present h schema (Some pn) = Ok true) /\
  (forall conds,
      conditional_props e = Some conds ->
      forallb (resolves h (parent e) pn) conds = true ->
      exists b,
        element_present h schema (Some pn) = Ok b /\
        (b = true <->
         forall rel value nm parent_props sibling_names,
           In (rel, value) conds ->
           resolve_condition h (parent e) pn rel
             = Ok (nm, parent_props, sibling_names) ->
           PyStr.mem nm parent_props = true ->
           value = PyStr.mem nm sibling_names)).
Proof.
  intros He. unfold element_present, deref. rewrite He. simpl. split.
  - by intros [-> | ->].
  - intros conds -> Hres.
    destruct (conditions_loop_spec h (parent e) pn conds Hres)
      as (b & Hloop & Hb).
    exists b. split.
    + destruct conds; [|done]. simpl in Hloop. congruence.
    + rewrite Hb. split.
      * intros H rel value nm pp sn Hin Hr.
        apply condition_conflicts_false. by eapply H.
      * intros H rel value [[nm pp] sn] Hin Hr.
        apply condition_conflicts_false. by eapply H.
Qed.

(** On the image node of [HEADER], the condition of [data-offset]
    (present when [data] is absent) resolves, and the element has a
    definite presence. *)
Lemma element_present_iff_listed_conditions_agree_witness :
  exists b,
    element_present (Schema.heap (Sample.built true)) 5
      (Some (mkRef Sample.image_1 [Sample.images_node; Sample.header]))
    = Ok b.
Proof.
  destruct (element_present_iff_listed_conditions_agree
              (Schema.heap (Sample.built true)) 5
              (mkElem KPropInt "data-offset" "int" true
                 (Some [("data", false)]) (Some 16) None)
              (mkRef Sample.image_1 [Sample.images_node; Sample.header])
              eq_refl) as [_ H].
  destruct (H [("data", false)] eq_refl eq_refl) as (b & Hb & _).
  exists b. exact Hb.
Defined.

(** C3, as stated, fails: an element conditional on [data] being
    absent, in a schema node that lists no element [data], is present
    on a node that has the property [data]. *)
Lemma unlisted_condition_is_ignored :
  ~ presence_as_specified Sample.unlisted_heap Sample.unlisted_element
      (mkRef Sample.image_1 [Sample.images_node; Sample.header]).
Proof.
  intros H.
  specialize (H _ [("data", false)] true eq_refl eq_refl eq_refl).
  destruct H as [H _].
  specialize (H eq_refl "data" false "data" ["data-offset"]
                (sibling_names_of Sample.image_1)
                (or_introl eq_refl) eq_refl).
  vm_compute in H. discriminate.
Qed.

(** C10. Without a tree node ([None], as [get_element_by_path] passes
    it) [element_present] returns [True] whatever the element's
    [conditional_props]; so path lookups see conditional elements:
    [/images/ANY/data-offset] resolves although [data-offset] is
    conditional. *)
Theorem element_present_without_node h schema e :
  h !! schema = Some e ->
  element_present h schema None = Ok true /\
  (forall pre post nm,
      get_elements h (parent e) = Ok (pre ++ schema :: post) ->
      name e = nm ->
      forallb (skips h nm None None) pre = true ->
      get_element h (parent e) nm None None = Ok (Some schema, true)).
Proof.
  intros He.
  assert (Hp : element_present h schema None = Ok true).
  { unfold element_present, deref. rewrite He. simpl.
    by destruct (conditional_props e) as [[|]|]. }
  split; [done|]. intros pre post nm Hels Hnm Hpre.
  unfold get_element. rewrite Hels. simpl.
  rewrite get_element_loop_first; [done | done |].
  unfold accepts. rewrite He, Hp. apply String.eqb_eq in Hnm.
  by rewrite Hnm.
Qed.

Lemma element_present_without_node_witness :
  element_present (Schema.heap (Sample.built true)) 5 None = Ok true /\
  get_element_by_path (Schema.heap (Sample.built true))
    (FdtValidator_init (Some (Schema.schema (Sample.built true))) false)
    "/images/ANY/data-offset" = Ok (Some 5).
Proof.
  split.
  - apply (element_present_without_node (Schema.heap (Sample.built true)) 5
             (mkElem KPropInt "data-offset" "int" true
                (Some [("data", false)]) (Some 16) None)).
    reflexivity.
  - vm_compute. reflexivity.
Defined.

(** ** Properties that need no schema *)

Lemma fail_changes_errors location msg self :
  _errors (snd (fail location msg self)) <> _errors self.
Proof.
  rewrite fail_run. simpl. intros H.
  apply (f_equal (@length string)) in H. rewrite length_app in H.
  simpl in H. lia.
Qed.

(** A property other than [linux,phandle] and [phandle] for which the
    lookup gives no property element: it passes in silence when it is
    built in and is reported otherwise. *)
Lemma validate_property_without_schema h env node schema schema_props
    prop_name found builtin self :
  String.eqb prop_name "linux,phandle" = false ->
  String.eqb prop_name "phandle" = false ->
  get_element h schema prop_name (Some node) (Some ExpPropDesc) = Ok found ->
  not_a_property h (fst found) = Ok true ->
  _is_builtin_property (Some node) prop_name = Ok builtin ->
  validate_property h env node schema schema_props prop_name self =
  if builtin then (Ok tt, self)
  else fail (n_path (nr_node node))
         (unexpected_property_msg prop_name schema_props) self.
Proof.
  intros H1 H2 Hfound Hnot Hbuiltin. unfold validate_property.
  rewrite H1. unfold bind, lift. rewrite Hfound, Hnot, H2, Hbuiltin.
  by destruct builtin.
Qed.

(** C9. A [reg] property for which the schema gives no property element
    produces no finding exactly when the name of its node contains [@];
    [#address-cells] and [#size-cells] produce none exactly when some
    subnode of the node has a name containing [@].  Otherwise the
    finding is "Unexpected property". *)
Theorem builtin_property_tolerated_iff_unit_address h env node schema
    schema_props prop_name found self :
  get_element h schema prop_name (Some node) (Some ExpPropDesc) = Ok found ->
  not_a_property h (fst found) = Ok true ->
  let tolerated :=
    if String.eqb prop_name "reg"
    then PyStr.contains_at (n_name (nr_node node))
    else existsb (fun subnode => PyStr.contains_at (n_name subnode))
           (n_subnodes (nr_node node)) in
  prop_name = "reg" \/ prop_name = "#address-cells"
  \/ prop_name = "#size-cells" ->
  validate_property h env node schema schema_props prop_name self =
    (if tolerated then (Ok tt, self)
     else fail (n_path (nr_node node))
            (unexpected_property_msg prop_name schema_props) self) /\
  (_errors (snd (validate_property h env node schema schema_props
                   prop_name self)) = _errors self
   <-> tolerated = true).
Proof.
  intros Hfound Hnot tolerated Hname.
  assert (Hrun : validate_property h env node schema schema_props
                   prop_name self =
                 if tolerated then (Ok tt, self)
                 else fail (n_path (nr_node node))
                        (unexpected_property_msg prop_name schema_props) self).
  { destruct Hname as [-> | [-> | ->]];
      (eapply validate_property_without_schema; [done | done | done..|]);
      subst tolerated; simpl.
    - by destruct (PyStr.contains_at (n_name (nr_node node))).
    - done.
    - done. }
  split; [done|]. rewrite Hrun. destruct tolerated; simpl.
  - done.
  - split; [|done]. intros H. by apply fail_changes_errors in H.
Qed.

(** A [reg] property on [memory@0], under a schema node without
    elements, passes; the node has no subnodes, so [#size-cells] there
    is reported. *)
Lemma builtin_property_tolerated_iff_unit_address_witness :
  validate_property Sample.wildcard_first_heap Sample.env
    (mkRef Sample.memory_0 [Sample.header]) (Some 0) [] "reg"
    (FdtValidator_init (Some 0) false)
  = (Ok tt, FdtValidator_init (Some 0) false).
Proof.
  apply (builtin_property_tolerated_iff_unit_address
           Sample.wildcard_first_heap Sample.env
           (mkRef Sample.memory_0 [Sample.header]) (Some 0) [] "reg"
           (None, false) (FdtValidator_init (Some 0) false));
    [reflexivity | reflexivity | by left].
Defined.

(** C8. The loop over the properties of a node skips [linux,phandle]
    before any lookup: the property produces no finding and reaches no
    [validate], and the loop runs as if the node did not have it.  A
    lookup of that name where a property is expected never answers
    "no element, schema needed": when no listed element takes the name,
    the answer is "no element, no schema needed". *)
Theorem linux_phandle_is_skipped :
  (forall h env node schema schema_props self,
      validate_property h env node schema schema_props "linux,phandle" self
      = (Ok tt, self)) /\
  (forall h env node schema schema_props self,
      for_each (prop_keys (nr_node node))
        (validate_property h env node schema schema_props) self
      = for_each
          (List.filter (fun k => negb (String.eqb k "linux,phandle"))
             (prop_keys (nr_node node)))
          (validate_property h env node schema schema_props) self) /\
  (forall h schema node,
      get_element h schema "linux,phandle" node (Some ExpPropDesc)
      <> Ok (None, true)) /\
  (forall h schema node els,
      get_elements h schema = Ok els ->
      forallb (skips h "linux,phandle" node (Some ExpPropDesc)) els = true ->
      get_element h schema "linux,phandle" node (Some ExpPropDesc)
      = Ok (None, false)).
Proof.
  split; [|split; [|split]].
  - done.
  - intros h env node schema schema_props.
    induction (prop_keys (nr_node node)) as [|k keys IH]; intros self;
      [done|].
    simpl. destruct (String.eqb k "linux,phandle") eqn:Hk; simpl.
    + apply String.eqb_eq in Hk. subst k. unfold bind. simpl. apply IH.
    + unfold bind.
      destruct (validate_property h env node schema schema_props k self)
        as [[[]|e] self']; [apply IH | done].
  - intros h schema node. unfold get_element.
    destruct (get_elements h schema) as [els|]; simpl; [|done].
    destruct (get_element_loop h els "linux,phandle" node
                (Some ExpPropDesc)) as [[el|]|]; simpl; done.
  - intros h schema node els Hels Hskip. unfold get_element.
    rewrite Hels. simpl. by rewrite get_element_loop_none.
Qed.

(** [linux,phandle] on the [images] node of [HEADER]: the schema of
    [images] lists the image wildcard only. *)
Lemma linux_phandle_is_skipped_witness :
  get_element (Schema.heap (Sample.built true)) (Some 26) "linux,phandle"
    (Some (mkRef Sample.images_node [Sample.header])) (Some ExpPropDesc)
  = Ok (None, false).
Proof.
  destruct linux_phandle_is_skipped as (_ & _ & _ & H).
  apply (H _ _ _ [16]); reflexivity.
Defined.

(** ** Subnodes without schema *)

Lemma skips_evaluates h nm node expected el :
  skips h nm node expected el = true ->
  exists e b, h !! el = Some e /\ element_present h el node = Ok b.
Proof.
  unfold skips. destruct (h !! el) as [e|]; [|done].
  destruct (element_present h el node) as [b|]; [|done]. eauto.
Qed.

Lemma filter_nodes_sublist h els :
  Forall (fun el => is_Some (h !! el)) els ->
  exists nodes, filter_nodes h els = Ok nodes /\
                forall el, In el nodes -> In el els.
Proof.
  induction 1 as [|el els [e He] _ (nodes & Hn & Hsub)]; simpl.
  - by exists [].
  - unfold deref. rewrite He, Hn. simpl.
    destruct (is_NodeDesc (kind e)); eexists; (split; [done|]);
      simpl; intuition.
Qed.

Lemma present_names_evaluates h node els :
  Forall (fun el => exists e b, h !! el = Some e
                                /\ element_present h el node = Ok b) els ->
  exists names, present_names h els node = Ok names.
Proof.
  induction 1 as [|el els (e & b & He & Hb) _ (names & Hn)]; simpl.
  - by exists [].
  - unfold deref. rewrite He, Hb, Hn. simpl. eauto.
Qed.

(** C5. A node other than the root for which the parent's schema lists
    no present element with its name and no present node wildcard:
    [_validate_tree] on it is one call of [fail], at the parent's path,
    with "Unexpected subnode" and the names of the parent schema's
    present node elements.  The run does not look at the node's
    properties or subnodes: it is the same for any other contents. *)
Theorem unmatched_subnode_one_finding_no_descent h env node up
    parent_schema els :
  String.eqb (n_name node) "/" = false ->
  get_elements h parent_schema = Ok els ->
  forallb (skips h (n_name node) (node_parent (mkRef node up))
             (Some ExpNodeDesc)) els = true ->
  exists nodes names,
    get_nodes h parent_schema = Ok nodes /\
    present_names h nodes (node_parent (mkRef node up)) = Ok names /\
    forall self,
      let finding := unexpected_subnode_msg (n_name node) names in
      _validate_tree h env node up parent_schema self
        = fail (PyStr.dirname (n_path node)) finding self /\
      _errors (snd (_validate_tree h env node up parent_schema self))
        = _errors self
          ++ [PyStr.fmt_error (PyStr.dirname (n_path node)) finding] /\
      forall props subnodes,
        _validate_tree h env
          (mkNode (n_name node) (n_path node) props subnodes)
          up parent_schema self
        = _validate_tree h env node up parent_schema self.
Proof.
  intros Hname Hels Hskip.
  assert (Hall : Forall (fun el => exists e b,
                           h !! el = Some e /\
                           element_present h el
                             (node_parent (mkRef node up)) = Ok b) els).
  { apply List.Forall_forall. intros el Hin.
    eapply skips_evaluates. eapply forallb_forall in Hskip; eauto. }
  destruct (filter_nodes_sublist h els) as (nodes & Hnodes & Hsub).
  { eapply Forall_impl; [exact Hall|]. intros el (e & b & He & _). eauto. }
  destruct (present_names_evaluates h (node_parent (mkRef node up)) nodes)
    as (names & Hnames).
  { apply List.Forall_forall. intros el Hin.
    rewrite List.Forall_forall in Hall. apply Hall, Hsub, Hin. }
  exists nodes, names.
  assert (Hget : get_nodes h parent_schema = Ok nodes).
  { unfold get_nodes. by rewrite Hels. }
  assert (Hrun : forall props subnodes self,
             _validate_tree h env
               (mkNode (n_name node) (n_path node) props subnodes)
               up parent_schema self
             = fail (PyStr.dirname (n_path node))
                 (unexpected_subnode_msg (n_name node) names) self).
  { intros props subnodes self. simpl. rewrite Hname.
    unfold get_schema, bind, lift, get_element. simpl.
    unfold node_parent in *. simpl in *.
    rewrite Hels. simpl. rewrite get_element_loop_none by done. simpl.
    rewrite Hget. rewrite Hnames. rewrite fail_run. simpl. by destruct (_raise_on_error self). }
  split; [done|]. split; [done|]. intros self finding.
  assert (Hnode : _validate_tree h env node up parent_schema self
                  = fail (PyStr.dirname (n_path node)) finding self).
  { destruct node as [nm path props subnodes]. apply Hrun. }
  split; [done|]. split.
  - rewrite Hnode, fail_run. done.
  - intros props subnodes. by rewrite Hnode, Hrun.
Qed.

(** The node [wibble] of [HEADER + EXTRA] under the root schema *)
Lemma unmatched_subnode_one_finding_no_descent_witness :
  _errors (snd (_validate_tree (Schema.heap (Sample.built true)) Sample.env
                  Sample.wibble [Sample.header_extra]
                  (Some (Schema.schema (Sample.built true)))
                  (FdtValidator_init
                     (Some (Schema.schema (Sample.built true))) false)))
  = ["/: Unexpected subnode 'wibble', valid list is (images, configurations)"].
Proof.
  destruct (unmatched_subnode_one_finding_no_descent
              (Schema.heap (Sample.built true)) Sample.env
              Sample.wibble [Sample.header_extra]
              (Some (Schema.schema (Sample.built true)))
              [23; 24; 25; 26; 28] eq_refl eq_refl eq_refl)
    as (nodes & names & Hnodes & Hnames & H).
  destruct (H (FdtValidator_init
                 (Some (Schema.schema (Sample.built true))) false))
    as (_ & Herrors & _).
  rewrite Herrors. vm_compute in Hnodes. injection Hnodes as <-.
  vm_compute in Hnames. injection Hnames as <-. reflexivity.
Defined.

(** ** Parents of schema elements *)

Lemma assign_parent_lookup h elem p e :
  h !! elem = Some e ->
  assign_parent h elem p !! elem = Some (set_parent e p).
Proof.
  intros He. unfold assign_parent. rewrite He.
  apply list_lookup_insert_eq. by eapply lookup_lt_Some.
Qed.

Lemma assign_parent_other h elem p el :
  el <> elem -> assign_parent h elem p !! el = h !! el.
Proof.
  intros Hne. unfold assign_parent.
  destruct (h !! elem); [|done]. by apply list_lookup_insert_ne.
Qed.

(** [NodeDesc.__init__] points the [parent] of a listed element at the
    new node. *)
Lemma NodeDesc_init_sets_parent h k nm req els conds el e :
  In el els -> h !! el = Some e ->
  get_parent (fst (NodeDesc_init h k nm req els conds)) (Some el)
  = Ok (Some (length h)).
Proof.
  intros Hin He. unfold NodeDesc_init, alloc. simpl.
  set (h1 := h ++ _).
  assert (H1 : h1 !! el = Some e) by (by apply lookup_app_l_Some).
  clearbody h1.
  assert (Hgen : forall hh,
             (exists e', hh !! el = Some e' /\
                         (In el els \/ parent e' = Some (length h))) ->
             exists e', fold_left
                          (fun hh element =>
                             assign_parent hh element (Some (length h)))
                          els hh !! el = Some e'
                        /\ parent e' = Some (length h)).
  { clear. induction els as [|x els IH]; simpl; intros hh (e' & He' & Hc).
    - destruct Hc as [[]|Hp]. eauto.
    - apply IH. destruct (decide (x = el)) as [->|Hne].
      + eexists. split; [by apply assign_parent_lookup|]. by right.
      + exists e'. rewrite assign_parent_other by done. split; [done|].
        destruct Hc as [[Hx|Hin]|Hp]; [done | by left | by right]. }
  destruct (Hgen h1) as (e' & He' & Hp); [eauto|].
  unfold get_parent, deref, ElemId in *. rewrite He'. simpl. by rewrite Hp.
Qed.

(** C2 fails in [add_element]: the element is appended to the node's
    list, but its [parent] becomes the element itself, not the node. *)
Theorem add_element_parent_is_the_element_itself h self elem els h' :
  get_elements h (Some self) = Ok els ->
  add_element h self elem = Ok h' ->
  elem <> self ->
  elem < length h ->
  get_elements h' (Some self) = Ok (els ++ [elem]) /\
  get_parent h' (Some elem) = Ok (Some elem) /\
  get_parent h' (Some elem) <> Ok (Some self).
Proof.
  intros Hels Hadd Hne Hlt. unfold add_element in Hadd.
  rewrite Hels in Hadd. unfold get_elements, deref in *.
  destruct (h !! self) as [self_obj|] eqn:Hself; [|done]. simpl in *.
  destruct (negb (is_NodeAny (kind self_obj))); [done|].
  destruct (elements self_obj) as [els0|] eqn:Hels0; [|done].
  injection Hels as <-. injection Hadd as <-.
  destruct (lookup_lt_is_Some_2 h elem Hlt) as [e He].
  assert (Hself_lt : self < length h) by (by eapply lookup_lt_Some).
  set (h1 := <[self := _]> h).
  assert (H1 : h1 !! elem = Some e).
  { unfold h1. by rewrite list_lookup_insert_ne. }
  assert (Hp : get_parent (assign_parent h1 elem (Some elem)) (Some elem)
               = Ok (Some elem)).
  { unfold get_parent, deref.
    by rewrite (assign_parent_lookup _ _ _ _ H1). }
  split; [|split].
  - unfold get_elements, deref.
    rewrite assign_parent_other by done. unfold h1.
    by rewrite list_lookup_insert_eq.
  - done.
  - rewrite Hp. congruence.
Qed.

(** [node_config.add_element(PropString('kernel', True))] of
    [get_schema(False)] *)
Lemma add_element_parent_is_the_element_itself_witness :
  get_parent (Schema.heap (Sample.built false)) (Some 30) = Ok (Some 30) /\
  Schema.node_config (Sample.built false) = 22 /\
  get_elements (Schema.heap (Sample.built false)) (Some 22)
  = Ok [17; 18; 19; 20; 21; 30; 31].
Proof.
  destruct (add_element_parent_is_the_element_itself
              Sample.before_kernel 22 30 [17; 18; 19; 20; 21]
              Sample.after_kernel eq_refl eq_refl)
    as (_ & Hp & _); [done | vm_compute; lia |].
  split; [|split]; [|reflexivity..].
  vm_compute in Hp. vm_compute. exact Hp.
Defined.

(** An element with [conditional_props] added through [add_element]:
    its conditions are resolved through its own [parent], which is the
    element itself and has no [elements]. *)
Example added_conditional_element_raises :
  element_present Sample.added_conditional_heap
    Sample.added_conditional_element
    (Some (mkRef Sample.image_1 [Sample.images_node; Sample.header]))
  = Raise AttributeError.
Proof. reflexivity. Qed.

(** ** [#address-cells] *)

(** C6 fails for values other than 1 and 2: on a single cell of type
    [INT] nothing is recorded for 1 and 2, and for any other value the
    method raises [AttributeError] and records nothing, because [val]
    names the decoded integer when [val.fail] is called. *)
Theorem address_cells_out_of_range_raises_attribute_error env e owner_path
    p z self :
  kind e = KPropAddressCells ->
  p_type p = TINT ->
  fdt32_to_cpu (p_value p) = Ok z ->
  validate env e (ArgProp owner_path p) self =
  if Z.eqb z 1 || Z.eqb z 2 then (Ok tt, self)
  else (Raise AttributeError, self).
Proof.
  intros Hk Hty Hz. unfold validate. rewrite Hk.
  unfold PropAddressCells_validate_prop, must_be_u32, bind, lift. simpl.
  rewrite Hty, Hz. simpl.
  by destruct (Z.eqb z 1 || Z.eqb z 2).
Qed.

(** [#address-cells = <3>] at the root of [HEADER], against the
    [PropAddressCells] element of [schema.py] *)
Lemma address_cells_out_of_range_raises_attribute_error_witness :
  validate Sample.env
    (mkElem KPropAddressCells "#address-cells" "address-cells" true None
       (Some 29) None)
    (ArgProp "/" (mkProp "#address-cells" TINT (ValRaw [0; 0; 0; 3]%Z)))
    (FdtValidator_init (Some 29) false)
  = (Raise AttributeError, FdtValidator_init (Some 29) false).
Proof.
  apply (address_cells_out_of_range_raises_attribute_error Sample.env _ "/"
           _ 3%Z (FdtValidator_init (Some 29) false));
    reflexivity.
Defined.

(** The whole run over [HEADER] with [#address-cells = <3>] ends with
    [AttributeError] and an empty error list. *)
Example address_cells_3_run :
  Sample.run true false Sample.header_cells3
  = Ok (Raise AttributeError, mkVal [] false (Some 29) [] []).
Proof. vm_compute. reflexivity. Qed.

(** ** The model against [validate_test.py] *)

Example get_schema_returns upl :
  Schema.get_schema upl = Ok (Sample.built upl).
Proof. by destruct upl. Qed.

Example test_base :
  fst (start (Schema.heap (Sample.built true)) Sample.env Sample.header
         (FdtValidator_init (Some (Schema.schema (Sample.built true))) false))
  = Ok [].
Proof. vm_compute. reflexivity. Qed.

Example test_missing :
  fst (start (Schema.heap (Sample.built true)) Sample.env
         Sample.header_missing
         (FdtValidator_init (Some (Schema.schema (Sample.built true))) false))
  = Ok [ "/images/image-1: Required property 'project' missing";
         "/configurations/config-1: Required property 'firmware' missing" ].
Proof. vm_compute. reflexivity. Qed.

Example test_extra :
  fst (start (Schema.heap (Sample.built true)) Sample.env Sample.header_extra
         (FdtValidator_init (Some (Schema.schema (Sample.built true))) false))
  = Ok [ "/images: Unexpected property 'extra-prop', valid list is ()";
         "/: Unexpected subnode 'wibble', valid list is (images, configurations)" ].
Proof. vm_compute. reflexivity. Qed.

Example split_template :
  PyStr.split_slash "/a/ANY/b" = [""; "a"; "ANY"; "b"].
Proof. reflexivity. Qed.

Example dirname_nested : PyStr.dirname "/images/image-1" = "/images".
Proof. reflexivity. Qed.

Example dirname_top : PyStr.dirname "/wibble" = "/".
Proof. reflexivity. Qed.

(** * Further properties of the code *)

(** ** Building the schema heap *)

Lemma set_parent_twice e p : set_parent (set_parent e p) p = set_parent e p.
Proof. reflexivity. Qed.

Lemma assign_parent_length h elem p :
  length (assign_parent h elem p) = length h.
Proof.
  unfold assign_parent. destruct (h !! elem); [|done].
  apply length_insert.
Qed.

Lemma assign_all_length p els h :
  length (fold_left (fun hh x => assign_parent hh x p) els h) = length h.
Proof.
  revert h. induction els as [|x els IH]; intros h; simpl; [done|].
  by rewrite IH, assign_parent_length.
Qed.

Lemma assign_all_lookup p els h el :
  fold_left (fun hh x => assign_parent hh x p) els h !! el =
  if existsb (Nat.eqb el) els then (fun e => set_parent e p) <$> h !! el
  else h !! el.
Proof.
  revert h. induction els as [|x els IH]; intros h; simpl; [done|].
  rewrite IH. destruct (Nat.eqb el x) eqn:Hx; simpl.
  - apply Nat.eqb_eq in Hx. subst x.
    destruct (h !! el) as [e|] eqn:He.
    + rewrite (assign_parent_lookup _ _ _ _ He).
      by destruct (existsb (Nat.eqb el) els).
    + unfold assign_parent, ElemId. rewrite He. simpl. rewrite He.
      by destruct (existsb (Nat.eqb el) els).
  - apply Nat.eqb_neq in Hx. by rewrite assign_parent_other.
Qed.

(** X1. [NodeDesc.__init__] over elements that exist: the new node gets
    the next reference and lists exactly the elements passed; every
    listed element keeps its attributes and gets the new node as
    [parent], also when it had a parent before; every other element is
    left as it was. *)
Theorem NodeDesc_init_reparents_listed_elements h k nm req els conds :
  Forall (fun el => el < length h) els ->
  let h' := fst (NodeDesc_init h k nm req els conds) in
  let self := snd (NodeDesc_init h k nm req els conds) in
  self = length h /\
  length h' = S (length h) /\
  h' !! self = Some (mkElem k nm "node" req conds None (Some els)) /\
  (forall el e, In el els -> h !! el = Some e ->
                h' !! el = Some (set_parent e (Some self))) /\
  (forall el, ~ In el els -> el < length h -> h' !! el = h !! el).
Proof.
  intros Hall. unfold NodeDesc_init, alloc. simpl.
  split; [done|]. split; [|split; [|split]].
  - rewrite assign_all_length, length_app. simpl. lia.
  - rewrite assign_all_lookup.
    replace (existsb (Nat.eqb (length h)) els) with false.
    + rewrite lookup_app_r by lia. by rewrite Nat.sub_diag.
    + symmetry. apply not_true_is_false. intros Hex.
      apply existsb_exists in Hex as (x & Hin & Hx).
      apply Nat.eqb_eq in Hx. subst x.
      rewrite List.Forall_forall in Hall. specialize (Hall _ Hin). lia.
  - intros el e Hin He. rewrite assign_all_lookup.
    replace (existsb (Nat.eqb el) els) with true.
    + by rewrite (lookup_app_l_Some _ _ _ _ He).
    + symmetry. apply existsb_exists. exists el. split; [done|].
      apply Nat.eqb_refl.
  - intros el Hnin Hlt. rewrite assign_all_lookup.
    replace (existsb (Nat.eqb el) els) with false.
    + by rewrite lookup_app_l.
    + symmetry. apply not_true_is_false. intros Hex.
      apply existsb_exists in Hex as (x & Hin & Hx).
      apply Nat.eqb_eq in Hx. by subst x.
Qed.

(** An element listed by two nodes: the node built last is its
    parent. *)
Lemma NodeDesc_init_reparents_listed_elements_witness :
  fst (NodeDesc_init Sample.shared_heap KNodeDesc "second" false [0] None)
  !! 0
  = Some (mkElem KPropBool "flag" "bool" false None (Some 2) None).
Proof.
  destruct (NodeDesc_init_reparents_listed_elements Sample.shared_heap
              KNodeDesc "second" false [0] None)
    as (_ & _ & _ & H & _).
  - repeat constructor.
  - apply (H 0 (mkElem KPropBool "flag" "bool" false None (Some 1) None));
      [by left | reflexivity].
Defined.


(** ** Conditions that point above the node *)

Lemma deref_raises h r e : deref h r = Raise e -> e = AttributeError.
Proof.
  unfold deref. destruct r as [i|]; [|congruence].
  destruct (h !! i); congruence.
Qed.

Lemma get_parent_raises h r e :
  get_parent h r = Raise e -> e = AttributeError.
Proof.
  unfold get_parent. destruct (deref h r) eqn:Hd; simpl; [done|].
  intros [= <-]. by eapply deref_raises.
Qed.

Lemma get_elements_raises h r e :
  get_elements h r = Raise e -> e = AttributeError.
Proof.
  unfold get_elements. destruct (deref h r) as [x|] eqn:Hd; simpl.
  - destruct (elements x); congruence.
  - intros [= <-]. by eapply deref_raises.
Qed.

Lemma element_names_raises h els e :
  element_names h els = Raise e -> e = AttributeError.
Proof.
  induction els as [|el els IH]; simpl; [done|].
  destruct (h !! el) as [x|]; simpl; [|congruence].
  destruct (element_names h els); simpl; [done|].
  intros [= <-]. by apply IH.
Qed.

Lemma walk_up_plain h nm st nt :
  starts_dotdot nm = false -> walk_up h nm st nt = Ok (nm, st, nt).
Proof.
  destruct nm as [|a1 s1]; [done|].
  destruct a1 as [[] [] [] [] [] [] [] []]; try done.
  destruct s1 as [|a2 s2]; [done|].
  destruct a2 as [[] [] [] [] [] [] [] []]; try done.
  destruct s2 as [|a3 s3]; [done|].
  destruct a3 as [[] [] [] [] [] [] [] []]; done.
Qed.

Lemma walk_up_step h k nm st nt :
  walk_up h (dotdot (S k) nm) st nt =
  let? st' := get_parent h st in
  match nt with
  | None => Raise AttributeError
  | Some r => walk_up h (dotdot k nm) st' (node_parent r)
  end.
Proof. reflexivity. Qed.

Lemma walk_up_reaches h nm k :
  starts_dotdot nm = false ->
  forall st r a,
    node_up k r = Some a ->
    walk_up h (dotdot k nm) st (Some r) =
    let? st' := schema_up h k st in Ok (nm, st', Some a).
Proof.
  intros Hnm. induction k as [|k IH]; intros st r a Hup.
  - simpl in *. injection Hup as <-. by apply walk_up_plain.
  - rewrite walk_up_step. simpl in *.
    destruct (get_parent h st) as [st'|]; simpl; [|done].
    destruct (node_parent r) as [p|]; [|done]. by apply IH.
Qed.

Lemma walk_up_from_none h nm k st :
  starts_dotdot nm = false ->
  match walk_up h (dotdot k nm) st None with
  | Ok (_, _, Some _) => False
  | Ok (_, _, None) => True
  | Raise e => e = AttributeError
  end.
Proof.
  intros Hnm. destruct k as [|k].
  - simpl. by rewrite walk_up_plain.
  - rewrite walk_up_step.
    destruct (get_parent h st) eqn:Hp; simpl; [done|].
    by eapply get_parent_raises.
Qed.

Lemma walk_up_overshoots h nm k :
  starts_dotdot nm = false ->
  forall st r,
    node_up k r = None ->
    match walk_up h (dotdot k nm) st (Some r) with
    | Ok (_, _, Some _) => False
    | Ok (_, _, None) => True
    | Raise e => e = AttributeError
    end.
Proof.
  intros Hnm. induction k as [|k IH]; intros st r Hup; [done|].
  rewrite walk_up_step. simpl in Hup.
  destruct (get_parent h st) as [st'|] eqn:Hp; simpl.
  - destruct (node_parent r) as [p|].
    + by apply IH.
    + by apply walk_up_from_none.
  - by eapply get_parent_raises.
Qed.

(** X3. A condition name with [k] leading [../] segments is resolved
    [k] steps up both parent chains: it is tested against the elements
    of the [k]-th schema ancestor and the properties and subnodes of
    the [k]-th ancestor of the node.  With fewer than [k] ancestors
    above the node the lookup raises [AttributeError]. *)
Theorem resolve_condition_climbs_both_chains h schema_parent r k nm :
  starts_dotdot nm = false ->
  resolve_condition h schema_parent r (dotdot k nm) =
  match node_up k r with
  | Some a =>
      let? st := schema_up h k schema_parent in
      let? els := get_elements h st in
      let? parent_props := element_names h els in
      Ok (nm, parent_props, sibling_names_of (nr_node a))
  | None => Raise AttributeError
  end.
Proof.
  intros Hnm. unfold resolve_condition.
  destruct (node_up k r) as [a|] eqn:Hup.
  - rewrite (walk_up_reaches h nm k Hnm _ _ _ Hup).
    destruct (schema_up h k schema_parent) as [st|]; simpl; [|done].
    destruct (get_elements h st) as [els|]; simpl; [|done].
    by destruct (element_names h els).
  - pose proof (walk_up_overshoots h nm k Hnm schema_parent r Hup) as H.
    destruct (walk_up h (dotdot k nm) schema_parent (Some r))
      as [[[nm' st] [a|]]|e]; simpl; [done| |by subst].
    destruct (get_elements h st) as [els|] eqn:He; simpl.
    + destruct (element_names h els) eqn:Hn; simpl; [done|].
      f_equal. by eapply element_names_raises.
    + f_equal. by eapply get_elements_raises.
Qed.

(** [x] under [sub], conditional on [../variant]: one step up from
    [sub] is the root, which lists and has [variant]. *)
Lemma resolve_condition_climbs_both_chains_witness :
  resolve_condition Sample.variant_heap (Some 2)
    (mkRef Sample.variant_sub [Sample.variant_root]) "../variant"
  = Ok ("variant", ["variant"; "sub"], ["variant"; "sub"]) /\
  resolve_condition Sample.variant_heap (Some 2)
    (mkRef Sample.variant_sub [Sample.variant_root]) "../../variant"
  = Raise AttributeError.
Proof.
  split.
  - apply (resolve_condition_climbs_both_chains Sample.variant_heap (Some 2)
             (mkRef Sample.variant_sub [Sample.variant_root]) 1 "variant").
    reflexivity.
  - apply (resolve_condition_climbs_both_chains Sample.variant_heap (Some 2)
             (mkRef Sample.variant_sub [Sample.variant_root]) 2 "variant").
    reflexivity.
Defined.

(** ** Lookup by path *)

Lemma get_element_by_parts_app h pre :
  forall schema rest,
    get_element_by_parts h schema (pre ++ rest) =
    let? e := get_element_by_parts h schema pre in
    get_element_by_parts h e rest.
Proof.
  induction pre as [|part pre IH]; intros schema rest; simpl; [done|].
  destruct (get_element h schema part None None) as [[element needed]|];
    simpl; [apply IH | done].
Qed.

(** X4. [get_element_by_path] resolves a path one component after the
    other, each in the element the previous one gave.  A component
    that the element reached lists under no name and no wildcard gives
    [None]: as the last component of the path that is the result, and
    only when a further component follows does the lookup raise
    [AttributeError]. *)
Theorem get_element_by_path_missing_component h schema pre x els part :
  get_element_by_parts h schema pre = Ok (Some x) ->
  get_elements h (Some x) = Ok els ->
  forallb (skips h part None None) els = true ->
  get_element_by_parts h schema (pre ++ [part]) = Ok None /\
  forall next rest,
    get_element_by_parts h schema (pre ++ part :: next :: rest)
    = Raise AttributeError.
Proof.
  intros Hpre Hels Hskip.
  assert (Hpart : get_element h (Some x) part None None = Ok (None, true)).
  { unfold get_element. rewrite Hels. simpl.
    by rewrite get_element_loop_none. }
  split.
  - rewrite get_element_by_parts_app, Hpre. simpl. by rewrite Hpart.
  - intros next rest. rewrite get_element_by_parts_app, Hpre. simpl.
    by rewrite Hpart.
Qed.

(** In the schema of [schema.py] the root lists no [nothing]. *)
Lemma get_element_by_path_missing_component_witness :
  get_element_by_path (Schema.heap (Sample.built true))
    (FdtValidator_init (Some (Schema.schema (Sample.built true))) false)
    "/nothing" = Ok None /\
  get_element_by_path (Schema.heap (Sample.built true))
    (FdtValidator_init (Some (Schema.schema (Sample.built true))) false)
    "/nothing/more" = Raise AttributeError.
Proof.
  destruct (get_element_by_path_missing_component
              (Schema.heap (Sample.built true)) (Some 29) [] 29
              [23; 24; 25; 26; 28] "nothing" eq_refl eq_refl eq_refl)
    as [Hlast Hmore].
  split; [exact Hlast | exact (Hmore "more" [])].
Defined.

(** ** The findings of one node *)

Lemma mem_special_false prop_name :
  PyStr.mem prop_name special_property_names = false ->
  String.eqb prop_name "linux,phandle" = false /\
  String.eqb prop_name "phandle" = false /\
  String.eqb prop_name "reg" = false /\
  String.eqb prop_name "#address-cells" = false /\
  String.eqb prop_name "#size-cells" = false.
Proof.
  unfold PyStr.mem, special_property_names. simpl. intros H.
  apply orb_false_elim in H as [H1 H].
  apply orb_false_elim in H as [H2 H].
  apply orb_false_elim in H as [H3 H].
  apply orb_false_elim in H as [H4 H].
  apply orb_false_elim in H as [H5 _].
  done.
Qed.

(** X5. A property that no element of the node's schema takes, by name
    or as a wildcard: under the name [phandle] it gives the finding
    "phandle target not valid for this node"; under any name other than
    [linux,phandle], [phandle], [reg], [#address-cells] and
    [#size-cells] it gives one "Unexpected property" finding at the
    node's path. *)
Theorem unlisted_property_is_reported h env node schema schema_props els
    prop_name self :
  get_elements h schema = Ok els ->
  forallb (skips h prop_name (Some node) (Some ExpPropDesc)) els = true ->
  (prop_name = "phandle" ->
   validate_property h env node schema schema_props prop_name self
   = fail (n_path (nr_node node)) "phandle target not valid for this node"
       self) /\
  (PyStr.mem prop_name special_property_names = false ->
   validate_property h env node schema schema_props prop_name self
   = fail (n_path (nr_node node))
       (unexpected_property_msg prop_name schema_props) self).
Proof.
  intros Hels Hskip.
  assert (Hloop : get_element_loop h els prop_name (Some node)
                    (Some ExpPropDesc) = Ok None)
    by (by apply get_element_loop_none).
  split.
  - intros ->. unfold validate_property, bind, lift, get_element. simpl.
    rewrite Hels. simpl. rewrite Hloop. done.
  - intros Hspecial.
    destruct (mem_special_false _ Hspecial) as (H1 & H2 & H3 & H4 & H5).
    unfold validate_property, bind, lift, get_element, _is_builtin_property.
    rewrite H1, Hels. simpl. rewrite Hloop. simpl.
    rewrite H3, H4, H5. simpl. by rewrite H2.
Qed.

(** [extra-prop] on the [images] node of [HEADER + EXTRA] *)
Lemma unlisted_property_is_reported_witness :
  _errors (snd (validate_property (Schema.heap (Sample.built true))
                  Sample.env
                  (mkRef Sample.images_extra [Sample.header_extra])
                  (Some 26) [] "extra-prop"
                  (FdtValidator_init (Some 29) false)))
  = ["/images: Unexpected property 'extra-prop', valid list is ()"].
Proof.
  destruct (unlisted_property_is_reported (Schema.heap (Sample.built true))
              Sample.env (mkRef Sample.images_extra [Sample.header_extra])
              (Some 26) [] [16] "extra-prop"
              (FdtValidator_init (Some 29) false) eq_refl eq_refl)
    as [_ H].
  rewrite (H eq_refl). reflexivity.
Defined.

Lemma reports_fail_if (b : bool) location msg :
  Reports (if b then fail location msg else ret tt)
    (if b then [PyStr.fmt_error location msg] else []) (Ok tt).
Proof. destruct b; [apply reports_fail | apply reports_ret]. Qed.

Lemma check_required_prop_reports h node el :
  evaluates h (Some node) el = true ->
  Reports (check_required_prop h node el)
    (if required_prop_missing h node el
     then [PyStr.fmt_error (n_path (nr_node node))
             (required_property_msg (name_of h el))]
     else [])
    (Ok tt).
Proof.
  unfold evaluates, required_prop_missing, name_of, check_required_prop.
  intros Hev self. unfold bind, lift, deref.
  destruct (h !! el) as [e|]; [|done].
  destruct (element_present h el (Some node)) as [present|]; [|done].
  destruct (is_PropDesc (kind e)); simpl.
  - destruct present; simpl.
    + apply (reports_fail_if
               (required e
                && negb (PyStr.mem (name e) (prop_keys (nr_node node))))).
    + apply reports_ret.
  - destruct present; apply reports_ret.
Qed.

Lemma forallb_in {A} (f : A -> bool) l x :
  forallb f l = true -> In x l -> f x = true.
Proof. intros H Hin. by eapply forallb_forall in H. Qed.

Lemma reports_for_each_select_in {A} (l : list A) (body : A -> M unit)
    (select : A -> bool) (finding : A -> string) :
  (forall x, In x l ->
             Reports (body x) (if select x then [finding x] else [])
               (Ok tt)) ->
  Reports (for_each l body) (map finding (List.filter select l)) (Ok tt).
Proof.
  induction l as [|x l IH]; intros Hbody; simpl.
  - apply reports_ret.
  - assert (Hx := Hbody x (or_introl eq_refl)).
    assert (Hl : Reports (for_each l body)
                   (map finding (List.filter select l)) (Ok tt)).
    { apply IH. intros y Hy. apply Hbody. by right. }
    pose proof (reports_bind_ok (body x) (fun _ => for_each l body)
                  _ tt _ _ Hx Hl) as H.
    by destruct (select x).
Qed.

(** X6. The loop over required properties reports, in the order of the
    schema's list, one "Required property ... missing" finding at the
    node's path for every property element that is present, required
    and not among the node's properties, and nothing else; when the
    first finding raises, the run stops at the first of them. *)
Theorem required_properties_reported_in_schema_order h node els :
  forallb (evaluates h (Some node)) els = true ->
  Reports (for_each els (check_required_prop h node))
    (map (fun el => PyStr.fmt_error (n_path (nr_node node))
                      (required_property_msg (name_of h el)))
       (List.filter (required_prop_missing h node) els))
    (Ok tt).
Proof.
  intros Hev. apply reports_for_each_select_in. intros el Hin.
  apply check_required_prop_reports. by eapply forallb_in.
Qed.

(** The image node of [HEADER] without [project], against the elements
    of the image schema *)
Lemma required_properties_reported_in_schema_order_witness :
  _errors (snd (for_each
                  [0; 1; 2; 3; 4; 5; 6; 7; 8; 9; 10; 11; 12; 13; 14; 15; 30]
                  (check_required_prop (Schema.heap (Sample.built true))
                     (mkRef Sample.image_1_missing [Sample.header_missing]))
                  (FdtValidator_init (Some 29) false)))
  = ["/images/image-1: Required property 'project' missing"].
Proof.
  rewrite (required_properties_reported_in_schema_order
             (Schema.heap (Sample.built true))
             (mkRef Sample.image_1_missing [Sample.header_missing])
             [0; 1; 2; 3; 4; 5; 6; 7; 8; 9; 10; 11; 12; 13; 14; 15; 30]
             eq_refl).
  reflexivity.
Defined.

Lemma check_required_subnode_reports h node el :
  evaluates h (Some node) el = true ->
  Reports (check_required_subnode h node (subnode_names (nr_node node)) el)
    (if required_subnode_missing h node el
     then [PyStr.fmt_error (n_path (nr_node node))
             (missing_subnode_msg (name_of h el)
                (subnode_names (nr_node node)))]
     else [])
    (Ok tt).
Proof.
  unfold evaluates, required_subnode_missing, name_of,
    check_required_subnode, missing_subnode_msg.
  intros Hev self. unfold bind, lift, deref.
  destruct (h !! el) as [e|]; [|done].
  destruct (element_present h el (Some node)) as [present|]; [|done].
  destruct (is_NodeDesc (kind e)), (required e); simpl;
    try (destruct present; apply reports_ret).
  destruct present; simpl; [|apply reports_ret].
  destruct (subnode_names (nr_node node)) as [|n ns];
    apply (reports_fail_if (negb (PyStr.mem (name e) _))).
Qed.

(** X7. The loop over required subnodes reports, in the order of the
    schema's list, one "Missing subnode" finding at the node's path for
    every node element that is present, required and not among the
    node's subnode names; the message lists the subnodes the node has,
    and has no list when it has none.  A node wildcard, whose name is
    [ANY] and which is never required, is not reported. *)
Theorem required_subnodes_reported_in_schema_order h node els :
  forallb (evaluates h (Some node)) els = true ->
  Reports (for_each els
             (check_required_subnode h node (subnode_names (nr_node node))))
    (map (fun el => PyStr.fmt_error (n_path (nr_node node))
                      (missing_subnode_msg (name_of h el)
                         (subnode_names (nr_node node))))
       (List.filter (required_subnode_missing h node) els))
    (Ok tt).
Proof.
  intros Hev. apply reports_for_each_select_in. intros el Hin.
  apply check_required_subnode_reports. by eapply forallb_in.
Qed.

(** A root with [images] only, against the root schema *)
Lemma required_subnodes_reported_in_schema_order_witness :
  _errors (snd (for_each [23; 24; 25; 26; 28]
                  (check_required_subnode (Schema.heap (Sample.built true))
                     (mkRef Sample.images_only [])
                     (subnode_names Sample.images_only))
                  (FdtValidator_init (Some 29) false)))
  = ["/: Missing subnode 'configurations' in images"].
Proof.
  rewrite (required_subnodes_reported_in_schema_order
             (Schema.heap (Sample.built true)) (mkRef Sample.images_only [])
             [23; 24; 25; 26; 28] eq_refl).
  reflexivity.
Defined.

(** ** Values of properties *)





Lemma check_phandle_target_segments target target_path_match :
  check_phandle_target target target_path_match = true <->
  segments_match target_path_match (n_path target).
Proof.
  unfold check_phandle_target, segments_match.
  destruct (Nat.eqb _ _) eqn:Hlen.
  - apply Nat.eqb_eq in Hlen. rewrite check_parts_true. simpl. tauto.
  - apply Nat.eqb_neq in Hlen. split; [done | tauto].
Qed.



(** X10. A template without wildcard use still matches the path it
    spells: [check_phandle_target] accepts every target against its own
    path as template, whatever the segments are. *)
Theorem check_phandle_target_accepts_own_path target :
  check_phandle_target target (n_path target) = true.
Proof.
  apply check_phandle_target_segments. unfold segments_match. simpl.
  split; [done|]. by intros i part Hi _.
Qed.

(** ** A subnode with the name of a property *)

Lemma exact_match_accepts h nm node expected el :
  exact_match h nm node el = true -> accepts h nm node expected el = true.
Proof.
  unfold exact_match, accepts. destruct (h !! el) as [e|]; [|done].
  destruct (element_present h el node) as [[|]|]; try done.
  by intros ->.
Qed.

Lemma validate_plain_property_on_node env e node self :
  plain_property (kind e) = true ->
  validate env e (ArgNode node) self = (Ok tt, self) \/
  validate env e (ArgNode node) self = (Raise AttributeError, self).
Proof.
  unfold validate, plain_property.
  destruct (kind e) as [| |pat| | | | |pat| |tpm|v|[v|]|o| | | |np|np|np];
    simpl; try done; intros _; auto.
  - unfold PropString_validate_prop.
    destruct (String.eqb pat ""); auto.
  - unfold PropStringList_validate_prop.
    destruct (String.eqb pat ""); auto.
Qed.

(** X11. In a lookup for a subnode an element with the subnode's name
    is returned whatever its class.  When it is a property element, the
    subnode is not reported as unexpected: [_validate_tree] takes the
    property element as the schema of the node and ends with
    [AttributeError], recording nothing. *)
Theorem subnode_named_like_property_raises h env node up parent_schema
    pre x post e self :
  String.eqb (n_name node) "/" = false ->
  get_elements h parent_schema = Ok (pre ++ x :: post) ->
  forallb (skips h (n_name node) (node_parent (mkRef node up))
             (Some ExpNodeDesc)) pre = true ->
  exact_match h (n_name node) (node_parent (mkRef node up)) x = true ->
  h !! x = Some e ->
  plain_property (kind e) = true ->
  elements e = None ->
  _validate_tree h env node up parent_schema self
  = (Raise AttributeError, self).
Proof.
  intros Hname Hels Hpre Hx He Hplain Hnone.
  assert (Hfound : get_element h parent_schema (n_name node)
                     (node_parent (mkRef node up)) (Some ExpNodeDesc)
                   = Ok (Some x, true)).
  { unfold get_element. rewrite Hels. simpl.
    rewrite get_element_loop_first; [done | done |].
    by apply exact_match_accepts. }
  assert (Hschema : _validate_schema h env (mkRef node up) (Some x) self
                    = (Raise AttributeError, self)).
  { unfold _validate_schema, bind, lift, get_elements, deref.
    rewrite He.
    destruct (validate_plain_property_on_node env e (mkRef node up) self
                Hplain) as [-> | ->]; [|done].
    simpl. by rewrite Hnone. }
  destruct node as [nm path props subnodes]. simpl in *. rewrite Hname.
  unfold get_schema, bind, lift, node_parent in *. simpl in *.
  rewrite Hfound. simpl. by rewrite Hschema.
Qed.

(** A subnode [load] of the image node of [HEADER]: the image schema
    lists [load] as an integer property. *)
Lemma subnode_named_like_property_raises_witness :
  _validate_tree (Schema.heap (Sample.built true)) Sample.env
    (mkNode "load" "/images/image-1/load" [] [])
    [Sample.image_1; Sample.images_node; Sample.header] (Some 16)
    (FdtValidator_init (Some 29) false)
  = (Raise AttributeError, FdtValidator_init (Some 29) false).
Proof.
  apply (subnode_named_like_property_raises
           (Schema.heap (Sample.built true)) Sample.env
           (mkNode "load" "/images/image-1/load" [] [])
           [Sample.image_1; Sample.images_node; Sample.header] (Some 16)
           [0; 1; 2; 3; 4; 5; 6; 7; 8] 9 [10; 11; 12; 13; 14; 15; 30]
           (mkElem KPropInt "load" "int" false None (Some 16) None));
    reflexivity.
Defined.

(** ** Runs of the validator *)

Lemma reports_final_state {A} (m : M A) fs o self :
  Reports m fs o ->
  exists fs', snd (m self) = set_errors self (_errors self ++ fs').
Proof.
  intros H. rewrite H. destruct (_raise_on_error self).
  - destruct fs as [|f fs]; simpl.
    + exists []. by rewrite set_errors_same.
    + by exists [f].
  - by exists fs.
Qed.

(** X12. Validation of a tree only appends to the error list: whatever
    the tree and the schema, and also when the run raises, the list at
    the end is the list at the start followed by the findings, and no
    other field of the validator changes. *)
Theorem validate_tree_only_appends h env node up parent_schema self :
  exists fs,
    snd (_validate_tree h env node up parent_schema self)
    = set_errors self (_errors self ++ fs).
Proof.
  destruct (reporting_validate_tree h env node up parent_schema)
    as (fs & o & H).
  by eapply reports_final_state.
Qed.

Lemma start_resets h env root self :
  start h env root self
  = start h env root
      (with_raise (mkVal [] false (_schema self) [] [])
         (_raise_on_error self)).
Proof. reflexivity. Qed.

Lemma start_final_state h env root self :
  exists fs,
    snd (start h env root self)
    = mkVal fs (_raise_on_error self) (_schema self) [] [].
Proof.
  destruct (reporting_validate_tree h env root [] (_schema self))
    as (fs & o & H).
  destruct (start_run h env root
              (mkVal [] false (_schema self) [] []) fs o H) as [Hf Ht].
  rewrite start_resets. destruct (_raise_on_error self).
  - rewrite Ht. destruct fs; eauto.
  - rewrite Hf. eauto.
Qed.

(** X13. A validator can be used for one document after the other:
    [start] clears the lists of the previous run and keeps the schema
    and [raise_on_error], so the result for a document does not depend
    on what the validator was run on before, also when that run
    raised. *)
Theorem start_independent_of_previous_run h env root1 root2 self :
  start h env root2 (snd (start h env root1 self))
  = start h env root2 self.
Proof.
  destruct (start_final_state h env root1 self) as (fs & ->).
  reflexivity.
Qed.

(** ** The image schema of [schema.py] *)

Lemma resolve_condition_plain h schema_parent node nm els parent_props :
  starts_dotdot nm = false ->
  get_elements h schema_parent = Ok els ->
  element_names h els = Ok parent_props ->
  resolve_condition h schema_parent node nm
  = Ok (nm, parent_props, sibling_names_of (nr_node node)).
Proof.
  intros Hnm Hels Hnames. unfold resolve_condition.
  rewrite walk_up_plain by done. simpl. rewrite Hels. simpl.
  by rewrite Hnames.
Qed.

Lemma image_data_conditions h els names :
  h !! 5 = Some (mkElem KPropInt "data-offset" "int" true
                   (Some [("data", false)]) (Some 16) None) ->
  h !! 6 = Some (mkElem KPropInt "data-size" "int" true
                   (Some [("data", false)]) (Some 16) None) ->
  h !! 7 = Some (mkElem KPropDesc "data" "True" false
                   (Some [("data-offset", false); ("data-size", false)])
                   (Some 16) None) ->
  get_elements h (Some 16) = Ok els ->
  element_names h els = Ok names ->
  PyStr.mem "data" names = true ->
  PyStr.mem "data-offset" names = true ->
  PyStr.mem "data-size" names = true ->
  forall node,
    let has nm := PyStr.mem nm (sibling_names_of (nr_node node)) in
    element_present h 5 (Some node) = Ok (negb (has "data")) /\
    element_present h 6 (Some node) = Ok (negb (has "data")) /\
    element_present h 7 (Some node)
    = Ok (negb (has "data-offset") && negb (has "data-size")) /\
    forall self,
      check_required_prop h node 7 self = (Ok tt, self) /\
      check_required_prop h node 5 self
      = if negb (has "data")
           && negb (PyStr.mem "data-offset" (prop_keys (nr_node node)))
        then fail (n_path (nr_node node))
               (required_property_msg "data-offset") self
        else (Ok tt, self).
Proof.
  intros H5 H6 H7 Hels Hnames Hd Ho Hs node has.
  assert (Hr : forall nm, starts_dotdot nm = false ->
                 resolve_condition h (Some 16) node nm
                 = Ok (nm, names, sibling_names_of (nr_node node))).
  { intros nm Hnm. by eapply resolve_condition_plain. }
  assert (P5 : element_present h 5 (Some node) = Ok (negb (has "data"))).
  { unfold element_present, deref, ElemId. rewrite H5.
    cbn [obind conditional_props parent conditions_loop].
    unfold condition_holds. cbn [fst snd]. rewrite Hr by done.
    cbn [obind]. unfold condition_conflicts. rewrite Hd. subst has.
    by destruct (PyStr.mem "data" (sibling_names_of (nr_node node))). }
  assert (P6 : element_present h 6 (Some node) = Ok (negb (has "data"))).
  { unfold element_present, deref, ElemId. rewrite H6.
    cbn [obind conditional_props parent conditions_loop].
    unfold condition_holds. cbn [fst snd]. rewrite Hr by done.
    cbn [obind]. unfold condition_conflicts. rewrite Hd. subst has.
    by destruct (PyStr.mem "data" (sibling_names_of (nr_node node))). }
  assert (P7 : element_present h 7 (Some node)
               = Ok (negb (has "data-offset") && negb (has "data-size"))).
  { unfold element_present, deref, ElemId. rewrite H7.
    cbn [obind conditional_props parent conditions_loop].
    unfold condition_holds. cbn [fst snd]. rewrite !Hr by done.
    cbn [obind]. unfold condition_conflicts. rewrite Ho, Hs. subst has.
    by destruct (PyStr.mem "data-offset" (sibling_names_of (nr_node node))),
         (PyStr.mem "data-size" (sibling_names_of (nr_node node))). }
  split; [done|]. split; [done|]. split; [done|]. intros self. split.
  - unfold check_required_prop, bind, lift. rewrite P7.
    unfold deref, ElemId. rewrite H7. simpl.
    by destruct (negb (has "data-offset") && negb (has "data-size")).
  - unfold check_required_prop, bind, lift. rewrite P5.
    unfold deref, ElemId. rewrite H5. simpl.
    destruct (has "data"); simpl; [done|].
    by destruct (PyStr.mem "data-offset" (prop_keys (nr_node node))).
Qed.

(** X14. In both variants of the schema, for every node: [data-offset]
    and [data-size] are present exactly when the node has no property
    or subnode [data]; [data] is present exactly when it has neither
    [data-offset] nor [data-size]; and [data], whose [True] lands in
    [prop_type], is not required, so a node without any of the three is
    reported for [data-offset] and [data-size] only. *)
Theorem image_data_elements_exclude_each_other upl :
  exists b,
    Schema.get_schema upl = Ok b /\
    name_of (Schema.heap b) 5 = "data-offset" /\
    name_of (Schema.heap b) 6 = "data-size" /\
    name_of (Schema.heap b) 7 = "data" /\
    forall node,
      let has nm := PyStr.mem nm (sibling_names_of (nr_node node)) in
      element_present (Schema.heap b) 5 (Some node) = Ok (negb (has "data")) /\
      element_present (Schema.heap b) 6 (Some node) = Ok (negb (has "data")) /\
      element_present (Schema.heap b) 7 (Some node)
      = Ok (negb (has "data-offset") && negb (has "data-size")) /\
      forall self,
        check_required_prop (Schema.heap b) node 7 self = (Ok tt, self) /\
        check_required_prop (Schema.heap b) node 5 self
        = if negb (has "data")
             && negb (PyStr.mem "data-offset" (prop_keys (nr_node node)))
          then fail (n_path (nr_node node))
                 (required_property_msg "data-offset") self
          else (Ok tt, self).
Proof.
  exists (Sample.built upl). split; [by destruct upl|].
  split; [by destruct upl|]. split; [by destruct upl|].
  split; [by destruct upl|].
  destruct upl.
  - apply (image_data_conditions (Schema.heap (Sample.built true))
             [0; 1; 2; 3; 4; 5; 6; 7; 8; 9; 10; 11; 12; 13; 14; 15; 30]
             [ "description"; "timestamp"; "arch"; "type"; "compression";
               "data-offset"; "data-size"; "data"; "os"; "load";
               "capabilities"; "producer"; "uncomp-size"; "entry-start";
               "entry"; "reloc-start"; "project" ]);
      vm_compute; reflexivity.
  - apply (image_data_conditions (Schema.heap (Sample.built false))
             [0; 1; 2; 3; 4; 5; 6; 7; 8; 9; 10; 11; 12; 13; 14; 15]
             [ "description"; "timestamp"; "arch"; "type"; "compression";
               "data-offset"; "data-size"; "data"; "os"; "load";
               "capabilities"; "producer"; "uncomp-size"; "entry-start";
               "entry"; "reloc-start" ]);
      vm_compute; reflexivity.
Qed.

(** ** The command line *)

Lemma start_same h env root self self' :
  _raise_on_error self = _raise_on_error self' ->
  _schema self = _schema self' ->
  start h env root self = start h env root self'.
Proof. intros Hr Hs. unfold start. by rewrite Hr, Hs. Qed.

Lemma files_loop_app h env document l1 l2 st :
  Cli.files_loop h env document (l1 ++ l2) st =
  match Cli.files_loop h env document l1 st with
  | (Ok _, st') => Cli.files_loop h env document l2 st'
  | r => r
  end.
Proof.
  revert st. induction l1 as [|f l1 IH]; intros st; simpl; [done|].
  destruct (start h env (document f) (Cli.validator st))
    as [[errors|e] self]; [apply IH | done].
Qed.

Lemma files_loop_returns h env document v0 fnames :
  (forall f, In f fnames ->
             exists errs, fst (start h env (document f) v0) = Ok errs) ->
  forall st,
    _raise_on_error (Cli.validator st) = _raise_on_error v0 ->
    _schema (Cli.validator st) = _schema v0 ->
    exists self',
      _raise_on_error self' = _raise_on_error v0 /\
      _schema self' = _schema v0 /\
      Cli.files_loop h env document fnames st =
      (Ok tt,
       Cli.mkLoop self'
         (Cli.found_errors st
          || existsb (has_findings h env document v0) fnames)
         (Cli.stderr st
          ++ flat_map (file_report h env document v0) fnames)).
Proof.
  induction fnames as [|f fnames IH]; intros Hall st Hr Hs; simpl.
  - exists (Cli.validator st). rewrite orb_false_r, app_nil_r.
    by destruct st.
  - destruct (Hall f (or_introl eq_refl)) as (errs & Hf).
    pose proof (start_same h env (document f) _ _ Hr Hs) as Hsame.
    destruct (start_final_state h env (document f) (Cli.validator st))
      as (fs & Hfinal).
    assert (Hh : has_findings h env document v0 f
                 = match errs with [] => false | _ => true end)
      by (unfold has_findings, file_errors; by rewrite Hf).
    assert (Hrep : file_report h env document v0 f
                   = match errs with
                     | [] => []
                     | _ => Cli.show_errors f errs
                     end)
      by (unfold file_report, file_errors; rewrite Hf; by destruct errs).
    rewrite Hh, Hrep. rewrite Hsame in Hfinal |- *.
    destruct (start h env (document f) v0) as [o self].
    simpl in Hf, Hfinal. subst o self.
    destruct (IH (fun g Hg => Hall g (or_intror Hg))
                (Cli.mkLoop
                   (mkVal fs (_raise_on_error (Cli.validator st))
                      (_schema (Cli.validator st)) [] [])
                   match errs with
                   | [] => Cli.found_errors st
                   | _ => true
                   end
                   match errs with
                   | [] => Cli.stderr st
                   | _ => Cli.stderr st ++ Cli.show_errors f errs
                   end) Hr Hs)
      as (self' & Hr' & Hs' & ->).
    exists self'. split; [done|]. split; [done|]. simpl.
    destruct errs as [|e errs]; simpl; [done|].
    by rewrite orb_true_r, <- app_assoc.
Qed.

(** X15. When [validator.start] returns a list for every file,
    [run_fit_validate] returns 1 if the list of some file has a finding
    and 0 otherwise, and has printed, file after file, the name and the
    findings of each file that has some and nothing for the others. *)
Theorem exit_status_reflects_findings env document args b :
  Schema.get_schema (Cli.upl args) = Ok b ->
  let v0 := FdtValidator_init (Some (Schema.schema b))
              (Cli.raise_on_error args) in
  (forall f, In f (Cli.files args) ->
             exists errs,
               fst (start (Schema.heap b) env (document f) v0) = Ok errs) ->
  Cli.run_fit_validate env document args =
  (Ok (if existsb (has_findings (Schema.heap b) env document v0)
            (Cli.files args)
       then 1 else 0),
   flat_map (file_report (Schema.heap b) env document v0) (Cli.files args)).
Proof.
  intros Hb v0 Hall. unfold Cli.run_fit_validate. rewrite Hb.
  destruct (files_loop_returns (Schema.heap b) env document v0
              (Cli.files args) Hall (Cli.mkLoop v0 false []))
    as (self' & _ & _ & Hloop); [done | done |].
  fold v0. rewrite Hloop. done.
Qed.

(** [HEADER] and then [HEADER] without [project] and [firmware] *)
Lemma exit_status_reflects_findings_witness :
  Cli.run_fit_validate Sample.env two_documents
    (Cli.mkArgs false true ["base.dts"; "missing.dts"])
  = (Ok 1,
     [ "missing.dts:";
       "/images/image-1: Required property 'project' missing";
       "/configurations/config-1: Required property 'firmware' missing";
       "" ]).
Proof.
  rewrite (exit_status_reflects_findings Sample.env two_documents
             (Cli.mkArgs false true ["base.dts"; "missing.dts"])
             (Sample.built true) eq_refl).
  - vm_compute. reflexivity.
  - intros f [<- | [<- | []]]; eexists; vm_compute; reflexivity.
Defined.

(** X16. When [validator.start] raises [ValueError] for a file, as it
    does on the first finding with [--raise-on-error], the handler
    reads [args.debug], which the parser does not define:
    [run_fit_validate] ends with [AttributeError] instead of printing
    "Failed: ..." and returning 1. *)
Theorem value_error_ends_in_attribute_error env document args b pre f post
    msg :
  Schema.get_schema (Cli.upl args) = Ok b ->
  let v0 := FdtValidator_init (Some (Schema.schema b))
              (Cli.raise_on_error args) in
  Cli.files args = pre ++ f :: post ->
  (forall g, In g pre ->
             exists errs,
               fst (start (Schema.heap b) env (document g) v0) = Ok errs) ->
  fst (start (Schema.heap b) env (document f) v0) = Raise (ValueError msg) ->
  fst (Cli.run_fit_validate env document args) = Raise AttributeError.
Proof.
  intros Hb v0 Hfiles Hpre Hf. unfold Cli.run_fit_validate.
  rewrite Hb, Hfiles, files_loop_app.
  destruct (files_loop_returns (Schema.heap b) env document v0 pre Hpre
              (Cli.mkLoop v0 false []))
    as (self' & Hr & Hs & Hloop); [done | done |].
  fold v0. rewrite Hloop. simpl.
  rewrite (start_same (Schema.heap b) env (document f) self' v0 Hr Hs).
  destruct (start (Schema.heap b) env (document f) v0) as [o self''].
  simpl in Hf. by subst o.
Qed.

(** [HEADER + EXTRA] with [--raise-on-error] *)
Lemma value_error_ends_in_attribute_error_witness :
  fst (Cli.run_fit_validate Sample.env (fun _ => Sample.header_extra)
         (Cli.mkArgs true true ["extra.dts"]))
  = Raise AttributeError.
Proof.
  apply (value_error_ends_in_attribute_error Sample.env
           (fun _ => Sample.header_extra)
           (Cli.mkArgs true true ["extra.dts"]) (Sample.built true)
           [] "extra.dts" []
           "/images: Unexpected property 'extra-prop', valid list is ()");
    [reflexivity | reflexivity | by intros g [] | vm_compute; reflexivity].
Defined.

(** ** The order of the findings *)

Lemma reports_noop {A} (m : M A) (a : A) :
  (forall self, m self = (Ok a, self)) -> Reports m [] (Ok a).
Proof.
  intros H self. rewrite H, set_errors_same.
  by destruct (_raise_on_error self).
Qed.

Lemma present_prop_names_evaluates h node els :
  forallb (evaluates h (Some node)) els = true ->
  exists names, present_prop_names h els node = Ok names.
Proof.
  induction els as [|el els IH]; simpl; [by exists []|].
  intros H. apply andb_prop in H as [Hel Hels].
  destruct (IH Hels) as (names & Hnames). unfold evaluates in Hel.
  unfold deref. destruct (h !! el) as [e|]; [|done].
  destruct (element_present h el (Some node)) as [b|]; [|done]. simpl.
  rewrite Hnames. destruct (is_PropDesc (kind e)); simpl; eauto.
Qed.

(** X17. The findings of one node come in four groups, in this order:
    those of the schema element's own check of the node, those of the
    node's properties in the order of the node, one for each missing
    required property in the order of the schema, and one for each
    missing required subnode in the order of the schema. *)
Theorem node_findings_in_four_groups h env node schema s els fs_node
    fs_props :
  h !! schema = Some s ->
  elements s = Some els ->
  forallb (evaluates h (Some node)) els = true ->
  Reports (validate env s (ArgNode node)) fs_node (Ok tt) ->
  (forall schema_props,
      present_prop_names h els node = Ok schema_props ->
      Reports (for_each (prop_keys (nr_node node))
                 (validate_property h env node (Some schema) schema_props))
        fs_props (Ok tt)) ->
  Reports (_validate_schema h env node (Some schema))
    (fs_node ++ fs_props
     ++ map (fun el => PyStr.fmt_error (n_path (nr_node node))
                         (required_property_msg (name_of h el)))
          (List.filter (required_prop_missing h node) els)
     ++ map (fun el => PyStr.fmt_error (n_path (nr_node node))
                         (missing_subnode_msg (name_of h el)
                            (subnode_names (nr_node node))))
          (List.filter (required_subnode_missing h node) els))
    (Ok tt).
Proof.
  intros Hs Hels Hev Hnode Hprops.
  destruct (present_prop_names_evaluates h node els Hev) as (sp & Hsp).
  unfold _validate_schema.
  assert (Hd : deref h (Some schema) = Ok s) by (unfold deref; by rewrite Hs).
  assert (Hg : get_elements h (Some schema) = Ok els)
    by (unfold get_elements; rewrite Hd; simpl; by rewrite Hels).
  eapply (reports_bind_ok _ _ [] s); [rewrite Hd; apply reports_lift|].
  eapply reports_bind_ok; [exact Hnode|].
  eapply (reports_bind_ok _ _ [] els); [rewrite Hg; apply reports_lift|].
  eapply (reports_bind_ok _ _ [] sp); [rewrite Hsp; apply reports_lift|].
  eapply reports_bind_ok; [by apply Hprops|].
  eapply reports_bind_ok.
  - apply reports_for_each_select_in. intros el Hin.
    apply check_required_prop_reports. by eapply forallb_in.
  - apply reports_for_each_select_in. intros el Hin.
    apply check_required_subnode_reports. by eapply forallb_in.
Qed.

(** The image node of [HEADER] without [project], against the image
    schema *)
Lemma node_findings_in_four_groups_witness :
  _errors (snd (_validate_schema (Schema.heap (Sample.built true))
                  Sample.env
                  (mkRef Sample.image_1_missing [Sample.header_missing])
                  (Some 16) (FdtValidator_init (Some 29) false)))
  = ["/images/image-1: Required property 'project' missing"].
Proof.
  rewrite (node_findings_in_four_groups (Schema.heap (Sample.built true))
             Sample.env
             (mkRef Sample.image_1_missing [Sample.header_missing]) 16
             (mkElem (KNodeImage "image-\d+") "ANY" "node" false None
                (Some 26)
                (Some [0; 1; 2; 3; 4; 5; 6; 7; 8; 9; 10; 11; 12; 13; 14; 15;
                       30]))
             [0; 1; 2; 3; 4; 5; 6; 7; 8; 9; 10; 11; 12; 13; 14; 15; 30]
             [] [] eq_refl eq_refl eq_refl).
  - reflexivity.
  - apply reports_noop. intros self. reflexivity.
  - intros schema_props _. apply reports_noop. intros self. reflexivity.
Defined.

Lemma reports_subnodes_loop h env up' schema subnodes fss :
  Forall2 (fun subnode fs =>
             Reports (_validate_tree h env subnode up' schema) fs (Ok tt))
    subnodes fss ->
  Reports
    ((fix subnodes_loop (l : list Node) : M unit :=
        match l with
        | [] => ret tt
        | subnode :: rest =>
            _validate_tree h env subnode up' schema ;; subnodes_loop rest
        end) subnodes)
    (concat fss) (Ok tt).
Proof.
  induction 1 as [|subnode fs subnodes fss Hsub _ IH]; simpl.
  - apply reports_ret.
  - eapply reports_bind_ok; [exact Hsub | exact IH].
Qed.

Lemma reports_of_run {A} (m : M A) fs o self :
  Reporting m ->
  _raise_on_error self = false ->
  m self = (o, set_errors self (_errors self ++ fs)) ->
  Reports m fs o.
Proof.
  intros (fs' & o' & H) Hr Hrun. rewrite H, Hr in Hrun.
  injection Hrun as -> Hfs. apply app_inv_head in Hfs. by subst fs'.
Qed.

(** X18. The findings of a tree are those of its root node followed by
    those of its subtrees in document order, each subtree validated
    against the schema resolved for the node: the list is in depth-first
    order.  The node is the root, validated against the schema passed,
    or a node for which the parent's schema has an element. *)
Theorem tree_findings_in_document_order h env node up parent_schema schema
    fs_node fss :
  (String.eqb (n_name node) "/" = true /\ schema = parent_schema) \/
  (String.eqb (n_name node) "/" = false /\
   exists s needed,
     schema = Some s /\
     get_element h parent_schema (n_name node) (node_parent (mkRef node up))
       (Some ExpNodeDesc) = Ok (Some s, needed)) ->
  Reports (_validate_schema h env (mkRef node up) schema) fs_node (Ok tt) ->
  Forall2 (fun subnode fs =>
             Reports (_validate_tree h env subnode (node :: up) schema) fs
               (Ok tt))
    (n_subnodes node) fss ->
  Reports (_validate_tree h env node up parent_schema)
    (fs_node ++ concat fss) (Ok tt).
Proof.
  intros Hresolved Hnode Hsubs.
  pose proof (reports_subnodes_loop h env (node :: up) schema
                (n_subnodes node) fss Hsubs) as Hloop.
  destruct node as [nm path props subnodes]. simpl in *.
  eapply (reports_bind_ok _ _ [] (Some schema)).
  - destruct Hresolved as [[-> ->] | [-> (s & needed & -> & Hfound)]].
    + apply reports_ret.
    + apply reports_noop. intros self.
      unfold get_schema, bind, lift, node_parent in *. simpl in *.
      by rewrite Hfound.
  - simpl. eapply reports_bind_ok; [exact Hnode | exact Hloop].
Qed.

(** [HEADER + EXTRA] from the root: nothing for the root itself, then
    the finding of [images], nothing for [configurations], and the
    finding for [wibble]. *)
Lemma tree_findings_in_document_order_witness :
  _errors (snd (_validate_tree (Schema.heap (Sample.built true)) Sample.env
                  Sample.header_extra [] (Some 29)
                  (FdtValidator_init (Some 29) false)))
  = [ "/images: Unexpected property 'extra-prop', valid list is ()";
      "/: Unexpected subnode 'wibble', valid list is (images, configurations)" ].
Proof.
  rewrite (tree_findings_in_document_order (Schema.heap (Sample.built true))
             Sample.env Sample.header_extra [] (Some 29) (Some 29) []
             [ ["/images: Unexpected property 'extra-prop', valid list is ()"];
               [];
               ["/: Unexpected subnode 'wibble', valid list is (images, configurations)"] ]).
  - reflexivity.
  - left. split; reflexivity.
  - apply reports_noop. intros self. reflexivity.
  - unfold Sample.header_extra. cbn [n_subnodes].
    apply List.Forall2_cons;
      [|apply List.Forall2_cons;
         [|apply List.Forall2_cons; [|apply List.Forall2_nil]]];
      apply (reports_of_run _ _ _ (FdtValidator_init (Some 29) false));
      try apply reporting_validate_tree; vm_compute; reflexivity.
Defined.
